(** * aix_lvol: the logical-volume module of community.general

    A shallow embedding of [plugins/modules/system/aix_lvol.py]:
    the size converter ([convert_size], [round_ppsize]), the two report
    parsers ([parse_lv], [parse_vg]) and the reconciliation in [main],
    followed by the properties of the specification.

    Conventions of the embedding.
    - A Python [str] is a [string]; the character with code [n] stands for
      the code point [n], so the texts covered are those over code points
      0..255.  Character classes are those of Python 3 on that range.
    - A Python [int] is a [Z].  The interpreter's configurable limit on the
      number of digits [int()] accepts is not part of the model.
    - A Python [float] is a binary64 number, kept as a mantissa and an
      exponent; every operation rounds to nearest, ties to even.
    - [module.exit_json] and [module.fail_json] end the process, an
      exception nobody catches ends it too: each is an [outcome]. *)

From Stdlib Require Import ZArith List String Ascii Bool Lia.
From Stdlib Require Import DecimalString DecimalPos SpecFloat.
Import ListNotations.

Local Open Scope string_scope.
Local Open Scope list_scope.
Local Open Scope Z_scope.

(** ** Python primitives the module relies on *)

Module Py.

(** The exceptions the module can let escape. *)
Inductive exn : Type :=
| IndexError
| ValueError
| UnboundLocalError
| ZeroDivisionError
| OverflowError.

(** A computation that returns or raises. *)
Inductive res (A : Type) : Type :=
| Ok (a : A)
| Raise (e : exn).
Arguments Ok {A} a.
Arguments Raise {A} e.

Definition code (c : ascii) : Z := Z.of_N (N_of_ascii c).

Definition between (lo hi : Z) (c : ascii) : bool :=
  (lo <=? code c) && (code c <=? hi).

(** [\s] of [re] on [str], which is also [str.isspace]. *)
Definition is_space (c : ascii) : bool :=
  between 9 13 c || between 28 32 c || between 133 133 c
  || between 160 160 c.

(** [\d] of [re] on [str]. *)
Definition is_digit (c : ascii) : bool := between 48 57 c.

(** [\w] of [re] on [str]: alphanumeric code points and the underscore. *)
Definition is_word (c : ascii) : bool :=
  between 48 57 c || between 65 90 c || between 95 95 c
  || between 97 122 c || between 170 170 c || between 178 179 c
  || between 181 181 c || between 185 186 c || between 188 190 c
  || between 192 214 c || between 216 246 c || between 248 255 c.

(** Line boundaries of [str.splitlines]. *)
Definition is_linebreak (c : ascii) : bool :=
  between 10 13 c || between 28 30 c || between 133 133 c.

(** White space [int()] strips from both ends of its argument. *)
Definition is_int_space (c : ascii) : bool :=
  between 9 13 c || between 32 32 c || between 133 133 c
  || between 160 160 c.

Definition CR : ascii := ascii_of_nat 13.
Definition LF : ascii := ascii_of_nat 10.

(** [str.splitlines()]: [cur] holds the line being read, reversed.
    A carriage return followed by a line feed is one boundary, and a
    final boundary opens no further line. *)
Fixpoint splitlines_from (cur : list ascii) (s : list ascii)
  : list (list ascii) :=
  match s with
  | [] => match cur with [] => [] | _ => [rev cur] end
  | c :: s' =>
      if is_linebreak c then
        rev cur ::
          match s' with
          | d :: s'' =>
              if Ascii.eqb c CR && Ascii.eqb d LF
              then splitlines_from [] s''
              else splitlines_from [] s'
          | [] => splitlines_from [] s'
          end
      else splitlines_from (c :: cur) s'
  end.

Definition splitlines (s : string) : list string :=
  map string_of_list_ascii (splitlines_from [] (list_ascii_of_string s)).

(** [s[-1]]: the last character, [IndexError] on the empty string. *)
Fixpoint last_char (s : list ascii) : option ascii :=
  match s with
  | [] => None
  | [c] => Some c
  | _ :: s' => last_char s'
  end.

(** [s[:-1]]: everything but the last character. *)
Definition but_last (s : list ascii) : list ascii := removelast s.

(** [str.upper()] on one character, as far as [units.index] can tell:
    the lower-case ASCII letters go to upper case; every other code point
    below 256 goes to a string that is none of [M], [G], [T], for which
    the character itself stands. *)
Definition upper (c : ascii) : ascii :=
  if between 97 122 c then ascii_of_N (N_of_ascii c - 32) else c.

(** *** [int(str)] in base ten

    White space is stripped at both ends, one sign may follow, then come
    digits, where single underscores may separate two digits. *)

Definition digit_val (c : ascii) : Z := code c - 48.

Definition underscore : ascii := "_"%char.

(** Digits after the first one: [acc] is the value read so far. *)
Fixpoint int_digits (acc : Z) (s : list ascii) : option Z :=
  match s with
  | [] => Some acc
  | c :: s' =>
      if is_digit c then int_digits (10 * acc + digit_val c) s'
      else if Ascii.eqb c underscore then
        match s' with
        | d :: s'' =>
            if is_digit d then int_digits (10 * acc + digit_val d) s''
            else None
        | [] => None
        end
      else None
  end.

Definition int_unsigned (s : list ascii) : option Z :=
  match s with
  | c :: s' => if is_digit c then int_digits (digit_val c) s' else None
  | [] => None
  end.

Fixpoint lstrip (s : list ascii) : list ascii :=
  match s with
  | c :: s' => if is_int_space c then lstrip s' else s
  | [] => []
  end.

Definition strip (s : list ascii) : list ascii :=
  rev (lstrip (rev (lstrip s))).

Definition int_of_chars (s : list ascii) : option Z :=
  match strip s with
  | c :: s' =>
      if Ascii.eqb c "-"%char then option_map Z.opp (int_unsigned s')
      else if Ascii.eqb c "+"%char then int_unsigned s'
      else int_unsigned (c :: s')
  | [] => None
  end.

(** [int(s)]: the value, or [ValueError]. *)
Definition int (s : string) : res Z :=
  match int_of_chars (list_ascii_of_string s) with
  | Some z => Ok z
  | None => Raise ValueError
  end.

(** [str(n)] for an [int], as an f-string prints it. *)
Definition str (n : Z) : string := NilZero.string_of_int (Z.to_int n).

(** [sep.join(l)]. *)
Definition join (sep : string) (l : list string) : string :=
  String.concat sep l.

(** *** binary64

    A finite float is [mant * 2 ^ expo].  The numbers the module computes
    with are finite, so infinities and NaN are left out; a conversion
    that would overflow raises, as in Python. *)

Record float : Type := Float { mant : Z; expo : Z }.

(** The quotient [p / q] for [0 < q], rounded to the nearest integer,
    ties to the even one. *)
Definition rne_div (p q : Z) : Z :=
  let f := p / q in
  match 2 * (p mod q) ?= q with
  | Lt => f
  | Gt => f + 1
  | Eq => if Z.even f then f else f + 1
  end.

(** [z * 2 ^ k] for [0 <= k], and [z] itself otherwise: the scaling
    that keeps a quotient of integers when the exponent changes. *)
Definition scale (z k : Z) : Z := z * 2 ^ Z.max 0 k.

(** [floor (log2 (a / d))] for positive [a] and [d]. *)
Definition log2_quot (a d : Z) : Z :=
  let l := Z.log2 a - Z.log2 d in
  if scale d l <=? scale a (- l) then l else l - 1.

(** A mantissa of 54 bits, which a carry of the rounding can leave,
    is brought back to 53. *)
Definition normalize (m e : Z) : float :=
  if Z.abs m =? 2 ^ 53 then Float (m / 2) (e + 1) else Float m e.

(** The binary64 number nearest to [n / d], for [0 < d]: 53 bits of
    mantissa, and no exponent below that of the subnormal numbers. *)
Definition nearest (n d : Z) : float :=
  if n =? 0 then Float 0 0
  else
    let e := Z.max (-1074) (log2_quot (Z.abs n) d - 52) in
    normalize (rne_div (scale n (- e)) (scale d e)) e.

(** Whether the number is beyond the largest binary64 number. *)
Definition too_large (f : float) : bool := 971 <? expo f.

(** [float(n)] for an [int], and the conversion of an [int] operand of
    a float operation. *)
Definition float_of_int (n : Z) : res float :=
  let f := nearest n 1 in
  if too_large f then Raise OverflowError else Ok f.

(** [x / y] on floats.  The module divides the float of an integer by
    the float of a non-zero integer: the quotient is not above the
    dividend and stays finite. *)
Definition truediv (x y : float) : res float :=
  if mant y =? 0 then Raise ZeroDivisionError
  else
    let e := Z.min (expo x) (expo y) in
    let n := scale (mant x) (expo x - e) in
    let d := scale (mant y) (expo y - e) in
    Ok (if 0 <? d then nearest n d else nearest (- n) (- d)).

(** [round(x)] with one argument: the nearest [int], ties to even. *)
Definition round (x : float) : Z :=
  if 0 <=? expo x then mant x * 2 ^ expo x
  else rne_div (mant x) (2 ^ (- expo x)).

(** The same number in the Standard Library's specification of
    IEEE 754, against which the model is checked below. *)
Definition to_spec (x : float) : spec_float :=
  match mant x with
  | Z0 => S754_zero false
  | Zpos m => S754_finite false m (expo x)
  | Zneg m => S754_finite true m (expo x)
  end.

End Py.

(** ** The regular expressions of the parsers

    The patterns of the module are sequences of single characters and
    character classes, each taken once or under a greedy [+] or [*], with
    capture groups around some of them.  [search] is [re.search] on such a
    pattern: the leftmost start at which the pattern matches, each
    repetition taking the longest run first and giving characters back one
    at a time when the rest of the pattern fails. *)

Module Re.

Inductive cls : Type :=
| Chr (c : ascii)   (* the character itself *)
| Space             (* \s *)
| Word              (* \w *)
| Digit             (* \d *)
| Dot.              (* . *)

Inductive tok : Type :=
| One (k : cls)
| Plus (k : cls)    (* k+ *)
| Star (k : cls)    (* k* *)
| GOpen             (* ( *)
| GClose.           (* ) *)

Definition regex : Type := list tok.

Definition accepts (k : cls) (c : ascii) : bool :=
  match k with
  | Chr d => Ascii.eqb c d
  | Space => Py.is_space c
  | Word => Py.is_word c
  | Digit => Py.is_digit c
  | Dot => negb (Ascii.eqb c Py.LF)
  end.

(** Length of the longest prefix of [s] made of characters of [k]. *)
Fixpoint run (k : cls) (s : list ascii) : nat :=
  match s with
  | c :: s' => if accepts k c then S (run k s') else O
  | [] => O
  end.

(** The first of [f n], [f (n - 1)], ..., [f lo] that succeeds. *)
Fixpoint longest_first {R : Type} (f : nat -> option R) (lo n : nat)
  : option R :=
  if (n <? lo)%nat then None
  else
    match f n with
    | Some r => Some r
    | None =>
        match n with
        | O => None
        | S n' => longest_first f lo n'
        end
    end.

(** Characters read inside the group that is open, if one is. *)
Definition grab (cs : list ascii) (cur : option (list ascii))
  : option (list ascii) :=
  option_map (fun g => g ++ cs) cur.

(** Match [p] at the start of [s].  [cur] is the text of the open group,
    [done] the closed groups, last one first. *)
Fixpoint match_here (p : regex) (s : list ascii)
  (cur : option (list ascii)) (done : list string)
  : option (list string) :=
  match p with
  | [] => Some (rev done)
  | GOpen :: p' => match_here p' s (Some []) done
  | GClose :: p' =>
      match cur with
      | Some g => match_here p' s None (string_of_list_ascii g :: done)
      | None => match_here p' s None done
      end
  | One k :: p' =>
      match s with
      | c :: s' =>
          if accepts k c then match_here p' s' (grab [c] cur) done
          else None
      | [] => None
      end
  | Plus k :: p' =>
      longest_first
        (fun n => match_here p' (skipn n s) (grab (firstn n s) cur) done)
        1 (run k s)
  | Star k :: p' =>
      longest_first
        (fun n => match_here p' (skipn n s) (grab (firstn n s) cur) done)
        0 (run k s)
  end.

Fixpoint search_from (p : regex) (s : list ascii) : option (list string) :=
  match match_here p s None [] with
  | Some g => Some g
  | None =>
      match s with
      | _ :: s' => search_from p s'
      | [] => None
      end
  end.

(** [re.search(p, s)]: the groups of the match, or [None]. *)
Definition search (p : regex) (s : string) : option (list string) :=
  search_from p (list_ascii_of_string s).

(** [match[i]] for [1 <= i]. *)
Definition group (m : list string) (i : nat) : string :=
  nth (pred i) m "".

(** The characters of a literal part of a pattern. *)
Definition lit (s : string) : regex :=
  map (fun c => One (Chr c)) (list_ascii_of_string s).

End Re.

(** ** The module *)

Module AixLvol.

Import Py Re.

(** The [fail_json] calls of the module, named after the error each one
    reports; the tag tells the call sites apart, the message and the
    diagnostics are those of the call. *)
Inductive failure : Type :=
| MissingExecutable        (* get_bin_path(..., required=True) *)
| InvalidSizeUnit          (* "No valid size unit specified." *)
| MissingSizeError         (* "No size given." *)
| InsufficientSpaceError   (* "Not enough free space in volume group" *)
| GroupMismatchError       (* "already exist in volume group" *)
| ShrinkNotPermittedError  (* "No shrinking of Logical Volume" *)
| ExternalCommandError.    (* a command that returned non-zero *)

(** How a run ends.  [NoReport]: [main] returns without having called
    [exit_json] or [fail_json]. *)
Inductive outcome : Type :=
| ExitJson (changed : bool) (msg : string)
| FailJson (k : failure) (msg : string) (diag : option (Z * string * string))
| Uncaught (e : exn)
| NoReport.

(** An f-string: its parts, put together. *)
Definition fmt (parts : list string) : string := String.concat "" parts.

(** *** convert_size *)

Definition units : list ascii := ["M"%char; "G"%char; "T"%char].

(** [l.index(x)]: the first position of [x], [None] for [ValueError]. *)
Fixpoint index (x : ascii) (l : list ascii) : option nat :=
  match l with
  | [] => None
  | y :: l' =>
      if Ascii.eqb y x then Some O else option_map S (index x l')
  end.

Definition convert_size (size : string) : outcome + Z :=
  let chars := list_ascii_of_string size in
  match last_char chars with
  | None => inl (Uncaught IndexError)
  | Some c =>
      let unit := upper c in
      match index unit units with
      | None =>
          inl (FailJson InvalidSizeUnit "No valid size unit specified."
                 None)
      | Some i =>
          let multiplier := 1024 ^ Z.of_nat i in
          match int (string_of_list_ascii (but_last chars)) with
          | Raise e => inl (Uncaught e)
          | Ok n => inr (n * multiplier)
          end
      end
  end.

(** *** round_ppsize *)

Definition round_ppsize (x base : Z) : res Z :=
  match float_of_int x with
  | Raise e => Raise e
  | Ok fx =>
      match float_of_int base with
      | Raise e => Raise e
      | Ok fb =>
          match truediv fx fb with
          | Raise e => Raise e
          | Ok q =>
              let new_size := base * round q in
              Ok (if new_size <? x then new_size + base else new_size)
          end
      end
  end.

(** *** parse_lv *)

Record lv_facts : Type := LvFacts
  { lvf_name : string; lvf_vg : string; lvf_size : Z;
    lvf_policy : string }.

(** The local variables of [parse_lv]; [None] is a variable not
    assigned yet, and for [name] the [None] it starts with. *)
Record lv_vars : Type := LvVars
  { v_name : option string; v_vg : option string; v_lps : option Z;
    v_pp_size : option Z; v_policy : option string }.

Definition lv_vars0 : lv_vars := LvVars None None None None None.

(* LOGICAL VOLUME:\s+(\w+)\s+VOLUME GROUP:\s+(\w+) *)
Definition re_lv_name : regex :=
  lit "LOGICAL VOLUME:" ++ [Plus Space; GOpen; Plus Word; GClose; Plus Space]
  ++ lit "VOLUME GROUP:" ++ [Plus Space; GOpen; Plus Word; GClose].

(* LPs:\s+(\d+).*PPs *)
Definition re_lps : regex :=
  lit "LPs:" ++ [Plus Space; GOpen; Plus Digit; GClose; Star Dot]
  ++ lit "PPs".

(* PP SIZE:\s+(\d+) *)
Definition re_pp_size : regex :=
  lit "PP SIZE:" ++ [Plus Space; GOpen; Plus Digit; GClose].

(* INTER-POLICY:\s+(\w+) *)
Definition re_policy : regex :=
  lit "INTER-POLICY:" ++ [Plus Space; GOpen; Plus Word; GClose].

(** The body of the loop of [parse_lv] on one line. *)
Definition lv_line (v : lv_vars) (line : string) : res lv_vars :=
  match search re_lv_name line with
  | Some m =>
      Ok (LvVars (Some (group m 1)) (Some (group m 2))
            (v_lps v) (v_pp_size v) (v_policy v))
  | None =>
  match search re_lps line with
  | Some m =>
      match int (group m 1) with
      | Ok n => Ok (LvVars (v_name v) (v_vg v) (Some n)
                      (v_pp_size v) (v_policy v))
      | Raise e => Raise e
      end
  | None =>
  match search re_pp_size line with
  | Some m =>
      match int (group m 1) with
      | Ok n => Ok (LvVars (v_name v) (v_vg v) (v_lps v)
                      (Some n) (v_policy v))
      | Raise e => Raise e
      end
  | None =>
  match search re_policy line with
  | Some m =>
      Ok (LvVars (v_name v) (v_vg v) (v_lps v) (v_pp_size v)
            (Some (group m 1)))
  | None => Ok v
  end end end end.

(** A [for] loop over lines whose body can raise. *)
Fixpoint for_lines {V : Type} (body : V -> string -> res V) (v : V)
  (lines : list string) : res V :=
  match lines with
  | [] => Ok v
  | line :: rest =>
      match body v line with
      | Ok v' => for_lines body v' rest
      | Raise e => Raise e
      end
  end.

(** Reading a local variable. *)
Definition load {A : Type} (x : option A) : res A :=
  match x with
  | Some a => Ok a
  | None => Raise UnboundLocalError
  end.

(** Truth value of a string or [None]. *)
Definition truthy (x : option string) : bool :=
  match x with
  | Some s => negb (String.eqb s "")
  | None => false
  end.

(** The [return] of [parse_lv]: the condition first, then the entries of
    the dictionary from left to right. *)
Definition lv_result (v : lv_vars) : res (option lv_facts) :=
  if truthy (v_name v) then
    match load (v_name v) with Raise e => Raise e | Ok name =>
    match load (v_vg v) with Raise e => Raise e | Ok vg =>
    match load (v_lps v) with Raise e => Raise e | Ok lps =>
    match load (v_pp_size v) with Raise e => Raise e | Ok pp_size =>
    match load (v_policy v) with Raise e => Raise e | Ok policy =>
      Ok (Some (LvFacts name vg (lps * pp_size) policy))
    end end end end end
  else Ok None.

Definition parse_lv (data : string) : res (option lv_facts) :=
  match for_lines lv_line lv_vars0 (splitlines data) with
  | Ok v => lv_result v
  | Raise e => Raise e
  end.

(** *** parse_vg *)

Record vg_facts : Type := VgFacts
  { vgf_name : string; vgf_size : Z; vgf_free : Z; vgf_pp_size : Z }.

(** The local variables of [parse_vg], none of them assigned at first. *)
Record vg_vars : Type := VgVars
  { g_name : option string; g_size : option Z; g_pp_size : option Z;
    g_free : option Z }.

Definition vg_vars0 : vg_vars := VgVars None None None None.

(* VOLUME GROUP:\s+(\w+) *)
Definition re_vg_name : regex :=
  lit "VOLUME GROUP:" ++ [Plus Space; GOpen; Plus Word; GClose].

(* TOTAL PP.*\((\d+) *)
Definition re_total : regex :=
  lit "TOTAL PP" ++ [Star Dot; One (Chr "("%char); GOpen; Plus Digit; GClose].

(* FREE PP.*\((\d+) *)
Definition re_free : regex :=
  lit "FREE PP" ++ [Star Dot; One (Chr "("%char); GOpen; Plus Digit; GClose].

(** The body of the loop of [parse_vg] on one line. *)
Definition vg_line (v : vg_vars) (line : string) : res vg_vars :=
  match search re_vg_name line with
  | Some m =>
      Ok (VgVars (Some (group m 1)) (g_size v) (g_pp_size v) (g_free v))
  | None =>
  match search re_total line with
  | Some m =>
      match int (group m 1) with
      | Ok n => Ok (VgVars (g_name v) (Some n) (g_pp_size v) (g_free v))
      | Raise e => Raise e
      end
  | None =>
  match search re_pp_size line with
  | Some m =>
      match int (group m 1) with
      | Ok n => Ok (VgVars (g_name v) (g_size v) (Some n) (g_free v))
      | Raise e => Raise e
      end
  | None =>
  match search re_free line with
  | Some m =>
      match int (group m 1) with
      | Ok n => Ok (VgVars (g_name v) (g_size v) (g_pp_size v) (Some n))
      | Raise e => Raise e
      end
  | None => Ok v
  end end end end.

(** The [return] of [parse_vg]: the entries from left to right. *)
Definition vg_result (v : vg_vars) : res vg_facts :=
  match load (g_name v) with Raise e => Raise e | Ok name =>
  match load (g_size v) with Raise e => Raise e | Ok size =>
  match load (g_free v) with Raise e => Raise e | Ok free =>
  match load (g_pp_size v) with Raise e => Raise e | Ok pp_size =>
    Ok (VgFacts name size free pp_size)
  end end end end.

Definition parse_vg (data : string) : res vg_facts :=
  match for_lines vg_line vg_vars0 (splitlines data) with
  | Ok v => vg_result v
  | Raise e => Raise e
  end.

(** *** main *)

Inductive presence : Type := Present | Absent.

Inductive placement : Type := Maximum | Minimum.

(** The value of the [policy] parameter, one of its two choices. *)
Definition policy_name (p : placement) : string :=
  match p with Maximum => "maximum" | Minimum => "minimum" end.

(** [module.params], after the argument specification was applied. *)
Record params : Type := Params
  { vg : string; lv : string; lv_type : string; size : option string;
    opts : string; copies : Z; state : presence; policy : placement;
    pvs : list string }.

(** What [main] takes from the [AnsibleModule] object: the check mode,
    [get_bin_path] (a path, or the message of the failure it reports for
    a required executable) and [run_command] (exit code, standard
    output, standard error).  A run has at most three commands, the two
    reports and one more, so the answer of the machine is taken as a
    function of the command line. *)
Record env : Type := Env
  { check_mode : bool;
    get_bin_path : string -> string + string;
    run_command : string -> Z * string * string }.

(** [main] runs commands and may stop at any call: a step takes the
    commands run so far and gives them back with either the outcome
    that ends the run or a value to go on with. *)
Definition M (A : Type) : Type :=
  list string -> list string * (outcome + A).

Definition ret {A : Type} (a : A) : M A := fun tr => (tr, inr a).

Definition bind {A B : Type} (m : M A) (k : A -> M B) : M B :=
  fun tr =>
    match m tr with
    | (tr', inl o) => (tr', inl o)
    | (tr', inr a) => k a tr'
    end.

Notation "x <- m ;; k" := (bind m (fun x => k))
  (at level 61, m at next level, right associativity).
Notation "m ;; k" := (bind m (fun _ => k))
  (at level 61, right associativity).

Definition stop {A : Type} (o : outcome) : M A := fun tr => (tr, inl o).

Definition exit_json {A : Type} (changed : bool) (msg : string) : M A :=
  stop (ExitJson changed msg).

Definition fail_json {A : Type} (k : failure) (msg : string)
  (diag : option (Z * string * string)) : M A :=
  stop (FailJson k msg diag).

(** A call that returns, reports a failure or raises. *)
Definition call {A : Type} (r : outcome + A) : M A :=
  match r with inl o => stop o | inr a => ret a end.

(** A call that returns or raises; nothing catches the exception. *)
Definition try {A : Type} (r : res A) : M A :=
  match r with Ok a => ret a | Raise e => stop (Uncaught e) end.

Definition when (b : bool) (m : M unit) : M unit :=
  if b then m else ret tt.

Definition bin_path (e : env) (name : string) : M string :=
  match get_bin_path e name with
  | inr path => ret path
  | inl msg => fail_json MissingExecutable msg None
  end.

Definition command (e : env) (cmd : string) : M (Z * string * string) :=
  fun tr => (tr ++ [cmd], inr (run_command e cmd)).

(** The end of a mutating command: [exit_json(changed=True, ...)] on
    exit code zero, [fail_json] with the diagnostics otherwise. *)
Definition report {A : Type} (r : Z * string * string)
  (done failed : string) : M A :=
  let '(rc, out, err) := r in
  if rc =? 0 then exit_json true done
  else fail_json ExternalCommandError failed (Some (rc, out, err)).

(** [not size]. *)
Definition no_size (p : params) : bool := negb (truthy (size p)).

Definition main_steps (e : env) (p : params) : M unit :=
  let pv_list := join " " (pvs p) in
  let lv_policy :=
    match policy p with Maximum => "x" | Minimum => "m" end in
  let test_opt := if check_mode e then "echo " else "" in
  lsvg_cmd <- bin_path e "lsvg" ;;
  lslv_cmd <- bin_path e "lslv" ;;
  r <- command e (fmt [lsvg_cmd; " "; vg p]) ;;
  let '(rc, vg_info, err) := r in
  when (negb (rc =? 0))
    match state p with
    | Absent =>
        exit_json false (fmt ["Volume group "; vg p; " does not exist."])
    | Present =>
        fail_json ExternalCommandError
          (fmt ["Volume group "; vg p; " does not exist."])
          (Some (rc, vg_info, err))
    end ;;
  this_vg <- try (parse_vg vg_info) ;;
  lv_size <-
    match size p with
    | Some s =>
        mb <- call (convert_size s) ;;
        n <- try (round_ppsize mb (vgf_pp_size this_vg)) ;;
        ret (Some n)
    | None => ret None
    end ;;
  r <- command e (fmt [lslv_cmd; " "; lv p]) ;;
  let '(rc, lv_info, err) := r in
  when (negb (rc =? 0) && match state p with Absent => true | _ => false end)
    (exit_json false (fmt ["Logical Volume "; lv p; " does not exist."])) ;;
  this_lv <- try (parse_lv lv_info) ;;
  when (match state p, this_lv with
        | Present, None => no_size p
        | _, _ => false
        end)
    (fail_json MissingSizeError "No size given." None) ;;
  match this_lv with
  | None =>
      match state p with
      | Present =>
          n <- try (load lv_size) ;;
          when (vgf_free this_vg <? n)
            (fail_json InsufficientSpaceError
               (fmt ["Not enough free space in volume group ";
                     vgf_name this_vg; ": "; str (vgf_free this_vg);
                     " MB free."]) None) ;;
          mklv_cmd <- bin_path e "mklv" ;;
          r <- command e
                 (fmt [test_opt; " "; mklv_cmd; " -t "; lv_type p; " -y ";
                       lv p; " -c "; str (copies p); "  -e "; lv_policy;
                       " "; opts p; " "; vg p; " "; str n; "M "; pv_list]) ;;
          report r
            (fmt ["Logical volume "; lv p; " created."])
            (fmt ["Creating logical volume "; lv p; " failed."])
      | Absent => ret tt
      end
  | Some this_lv =>
      match state p with
      | Absent =>
          rmlv_cmd <- bin_path e "rmlv" ;;
          r <- command e
                 (fmt [test_opt; " "; rmlv_cmd; " -f "; lvf_name this_lv]) ;;
          report r
            (fmt ["Logical volume "; lv p; " deleted."])
            (fmt ["Failed to remove logical volume "; lv p; "."])
      | Present =>
          when (negb (String.eqb (lvf_policy this_lv) (policy_name (policy p))))
            (chlv_cmd <- bin_path e "chlv" ;;
             r <- command e
                    (fmt [test_opt; " "; chlv_cmd; " -e "; lv_policy; " ";
                          lvf_name this_lv]) ;;
             report r
               (fmt ["Logical volume "; lv p; " policy changed: ";
                     policy_name (policy p); "."])
               (fmt ["Failed to change logical volume "; lv p;
                     " policy."])) ;;
          when (negb (String.eqb (vg p) (lvf_vg this_lv)))
            (fail_json GroupMismatchError
               (fmt ["Logical volume "; lv p;
                     " already exist in volume group "; lvf_vg this_lv])
               None) ;;
          when (no_size p)
            (exit_json false
               (fmt ["Logical volume "; lv p; " already exist."])) ;;
          n <- try (load lv_size) ;;
          if lvf_size this_lv <? n then
            extendlv_cmd <- bin_path e "extendlv" ;;
            r <- command e
                   (fmt [test_opt; " "; extendlv_cmd; " "; lv p; " ";
                         str (n - lvf_size this_lv); "M"]) ;;
            report r
              (fmt ["Logical volume "; lv p; " size extended to "; str n;
                    "MB."])
              (fmt ["Unable to resize "; lv p; " to "; str n; "MB."])
          else if n <? lvf_size this_lv then
            fail_json ShrinkNotPermittedError
              (fmt ["No shrinking of Logical Volume "; lv p;
                    " permitted. Current size: "; str (lvf_size this_lv);
                    " MB"]) None
          else
            exit_json false
              (fmt ["Logical volume "; lv p; " size is already "; str n;
                    "MB."])
      end
  end.

(** A run of [main]: the commands it ran, in order, and how it ended. *)
Definition main (e : env) (p : params) : list string * outcome :=
  match main_steps e p [] with
  | (tr, inl o) => (tr, o)
  | (tr, inr _) => (tr, NoReport)
  end.

End AixLvol.

(** ** Notions of the specification *)

Module Spec.

Import Py Re AixLvol.

(** Position of a unit letter in [M, G, T], in either case. *)
Definition unit_index (u : ascii) : option nat :=
  if Ascii.eqb u "M"%char || Ascii.eqb u "m"%char then Some 0%nat
  else if Ascii.eqb u "G"%char || Ascii.eqb u "g"%char then Some 1%nat
  else if Ascii.eqb u "T"%char || Ascii.eqb u "t"%char then Some 2%nat
  else None.

(** What comes before the unit letter of a size. *)
Definition prefix (size : string) : string :=
  string_of_list_ascii (but_last (list_ascii_of_string size)).

(** Whether a line of a volume report carries the volume name and its
    group. *)
Definition names_lv (line : string) : bool :=
  match search re_lv_name line with Some _ => true | None => false end.

(** The four labelled fields of a volume report. *)
Inductive lv_field : Type := LvName | LvLps | LvPpSize | LvPolicy.

Definition lv_field_eqb (a b : lv_field) : bool :=
  match a, b with
  | LvName, LvName | LvLps, LvLps | LvPpSize, LvPpSize
  | LvPolicy, LvPolicy => true
  | _, _ => false
  end.

(** The field a line of a volume report is read as, with the first text
    taken from it. *)
Definition lv_field_of (line : string) : option (lv_field * string) :=
  match search re_lv_name line with
  | Some m => Some (LvName, group m 1)
  | None =>
  match search re_lps line with
  | Some m => Some (LvLps, group m 1)
  | None =>
  match search re_pp_size line with
  | Some m => Some (LvPpSize, group m 1)
  | None =>
  match search re_policy line with
  | Some m => Some (LvPolicy, group m 1)
  | None => None
  end end end end.

(** The last line read as a field counts. *)
Fixpoint lv_found (f : lv_field) (lines : list string) : option string :=
  match lines with
  | [] => None
  | line :: rest =>
      match lv_found f rest with
      | Some t => Some t
      | None =>
          match lv_field_of line with
          | Some (f', t) => if lv_field_eqb f f' then Some t else None
          | None => None
          end
      end
  end.

(** The four labelled fields of a group report. *)
Inductive vg_field : Type := VgName | VgTotal | VgPpSize | VgFree.

Definition vg_field_eqb (a b : vg_field) : bool :=
  match a, b with
  | VgName, VgName | VgTotal, VgTotal | VgPpSize, VgPpSize
  | VgFree, VgFree => true
  | _, _ => false
  end.

(** The field a line of a group report is read as, with the text taken
    from it: the first label, in the order in which the parser tries them,
    that the line shows. *)
Definition vg_field_of (line : string) : option (vg_field * string) :=
  match search re_vg_name line with
  | Some m => Some (VgName, group m 1)
  | None =>
  match search re_total line with
  | Some m => Some (VgTotal, group m 1)
  | None =>
  match search re_pp_size line with
  | Some m => Some (VgPpSize, group m 1)
  | None =>
  match search re_free line with
  | Some m => Some (VgFree, group m 1)
  | None => None
  end end end end.

(** A field is found when some line is read as it; the last such line
    counts. *)
Fixpoint vg_found (f : vg_field) (lines : list string) : option string :=
  match lines with
  | [] => None
  | line :: rest =>
      match vg_found f rest with
      | Some t => Some t
      | None =>
          match vg_field_of line with
          | Some (f', t) => if vg_field_eqb f f' then Some t else None
          | None => None
          end
      end
  end.

(** The free space as the specification reads it: the aligned size of [n]
    MB, counted in allocation units, exceeds the free figure of the
    group. *)
Definition exceeds_free_units (n : Z) (this_vg : vg_facts) : bool :=
  vgf_free this_vg <? n / vgf_pp_size this_vg.

End Spec.

(** ** A machine to run the module on *)

Module Sample.

Import Py AixLvol.

Definition newline : string := String LF "".

Definition text (lines : list string) : string := String.concat newline lines.

(** A group with allocation units of 4 MB, 1000 MB of them free. *)
Definition lsvg_report : string := text
  [ "VOLUME GROUP:       testvg                   VG IDENTIFIER:  00f6a7b8";
    "VG STATE:           active                   PP SIZE:        4 megabyte(s)";
    "VG PERMISSION:      read/write               TOTAL PPs:      2000 (8000 megabytes)";
    "MAX LVs:            256                      FREE PPs:       250 (1000 megabytes)" ].

(** The same report without the line of the free units. *)
Definition lsvg_report_short : string := text
  [ "VOLUME GROUP:       testvg                   VG IDENTIFIER:  00f6a7b8";
    "VG STATE:           active                   PP SIZE:        4 megabyte(s)";
    "VG PERMISSION:      read/write               TOTAL PPs:      2000 (8000 megabytes)" ].

(** A volume of 128 units of 4 MB, spread over the maximum of disks. *)
Definition lslv_report : string := text
  [ "LOGICAL VOLUME:     testlv                 VOLUME GROUP:   testvg";
    "MAX LPs:            512                    PP SIZE:        4 megabyte(s)";
    "LPs:                128                    PPs:            128";
    "INTER-POLICY:       maximum                RELOCATABLE:    yes" ].

Definition this_lv : lv_facts := LvFacts "testlv" "testvg" 512 "maximum".

Definition this_vg : vg_facts := VgFacts "testvg" 8000 1000 4.

(** Every executable is found under /usr/sbin; [lsvg] succeeds with the
    report above, [lslv] answers [lslv], every other command succeeds. *)
Definition run (lslv : Z * string * string) (cmd : string)
  : Z * string * string :=
  if String.eqb cmd "/usr/sbin/lsvg testvg" then (0, lsvg_report, "")
  else if String.eqb cmd "/usr/sbin/lslv testlv" then lslv
  else (0, "", "").

Definition machine (lslv : Z * string * string) : env :=
  Env false (fun name => inr ("/usr/sbin/" ++ name)%string) (run lslv).

(** [lslv] when there is no such volume. *)
Definition no_volume : Z * string * string :=
  (1, "", "0516-306 lslv: Unable to find testlv in the Device Configuration Database.").

Definition volume : Z * string * string := (0, lslv_report, "").

Definition task (size : option string) (state : presence)
  (policy : placement) : params :=
  Params "testvg" "testlv" "jfs2" size "" 1 state policy [].

Definition reports : list string :=
  ["/usr/sbin/lsvg testvg"; "/usr/sbin/lslv testlv"].

(** The report of a volume whose name is not made of word characters
    only. *)
Definition lslv_report_dashed : string := text
  [ "LOGICAL VOLUME:     data-lv                VOLUME GROUP:   testvg";
    "MAX LPs:            512                    PP SIZE:        4 megabyte(s)";
    "LPs:                128                    PPs:            128";
    "INTER-POLICY:       maximum                RELOCATABLE:    yes" ].

(** The machine on which that volume exists. *)
Definition dashed_machine : env :=
  Env false (fun name => inr ("/usr/sbin/" ++ name)%string)
    (fun cmd =>
       if String.eqb cmd "/usr/sbin/lsvg testvg" then (0, lsvg_report, "")
       else if String.eqb cmd "/usr/sbin/lslv data-lv"
            then (0, lslv_report_dashed, "")
            else (0, "", "")).

(** The removal of that volume. *)
Definition dashed_task : params :=
  Params "testvg" "data-lv" "jfs2" None "" 1 Absent Maximum [].

(** Pairs of integers on which the model of the float division is
    compared with the Standard Library's specification. *)
Definition grid : list (Z * Z) :=
  list_prod
    ([1; 2; 3; 5; 7; 10; 100; 511; 512; 513; 1000; 4097; -3; -10;
      2 ^ 53 - 1; 2 ^ 53 + 1; 2 ^ 54 + 2; 10 ^ 18 + 7; 3 * 2 ^ 60 + 5;
      2 ^ 1023 + 12345])
    ([1; 2; 3; 4; 6; 7; 16; 128; 1024; 1000003; 2 ^ 53 + 1; 2 ^ 60 + 3;
      2 ^ 1000; 2 ^ 1023]).

Definition spec_eqb (a b : spec_float) : bool :=
  match a, b with
  | S754_zero s, S754_zero s' => Bool.eqb s s'
  | S754_finite s m e, S754_finite s' m' e' =>
      Bool.eqb s s' && Pos.eqb m m' && Z.eqb e e'
  | _, _ => false
  end.

Definition spec_of_int (n : Z) : spec_float :=
  binary_normalize 53 1024 n 0 false.

(** Whether [float(x) / b] is the same number in the model and in the
    Standard Library's specification. *)
Definition agrees (xb : Z * Z) : bool :=
  let '(x, b) := xb in
  match float_of_int x, float_of_int b with
  | Ok fx, Ok fb =>
      spec_eqb (to_spec fx) (spec_of_int x)
      && spec_eqb (to_spec fb) (spec_of_int b)
      && match truediv fx fb with
         | Ok q => spec_eqb (to_spec q) (SFdiv 53 1024 (spec_of_int x) (spec_of_int b))
         | Raise _ => false
         end
  | _, _ => false
  end.

End Sample.

(** ** Notions of the proofs *)

Import Py Re AixLvol Spec.

(** [N <= mant * 2 ^ expo], without leaving the integers. *)
Definition at_least (N : Z) (f : float) : Prop :=
  if 0 <=? expo f then N <= mant f * 2 ^ expo f
  else N * 2 ^ (- expo f) <= mant f.

(** A token that neither opens nor closes a group. *)
Definition plain (t : tok) : bool :=
  match t with GOpen | GClose => false | _ => true end.

(** A pattern with one group, around [k+]. *)
Definition one_group (k : cls) (p : regex) : Prop :=
  exists pre post,
    p = pre ++ [GOpen; Plus k; GClose] ++ post /\
    forallb plain pre = true /\ forallb plain post = true.

(** The value of a captured number. *)
Definition num (t : string) : Z :=
  match int t with Ok n => n | Raise _ => 0 end.

(** The assignment a line of a group report makes. *)
Definition vg_set (v : vg_vars) (r : option (vg_field * string)) : vg_vars :=
  match r with
  | Some (VgName, t) => VgVars (Some t) (g_size v) (g_pp_size v) (g_free v)
  | Some (VgTotal, t) =>
      VgVars (g_name v) (Some (num t)) (g_pp_size v) (g_free v)
  | Some (VgPpSize, t) =>
      VgVars (g_name v) (g_size v) (Some (num t)) (g_free v)
  | Some (VgFree, t) =>
      VgVars (g_name v) (g_size v) (g_pp_size v) (Some (num t))
  | None => v
  end.

(** The numbers a line of a volume report assigns. *)
Definition lv_numbers (v : lv_vars) (r : option (lv_field * string))
  : option Z * option Z :=
  match r with
  | Some (LvLps, t) => (Some (num t), v_pp_size v)
  | Some (LvPpSize, t) => (v_lps v, Some (num t))
  | _ => (v_lps v, v_pp_size v)
  end.

Definition or_else {A : Type} (x y : option A) : option A :=
  match x with Some a => Some a | None => y end.

(** ** Further machines and notions *)

Module More.

Import Py AixLvol.

(** The sample machine in check mode. *)
Definition check_machine (lslv : Z * string * string) : env :=
  Env true (fun name => inr ("/usr/sbin/" ++ name)%string) (Sample.run lslv).

(** A machine on which no executable is found. *)
Definition bare_machine : env :=
  Env false (fun name => inl "Failed to find required executable")
    (fun _ => (0, "", "")).

(** A machine without the volume group. *)
Definition no_group : env :=
  Env false (fun name => inr ("/usr/sbin/" ++ name)%string)
    (fun _ => (1, "", "0516-306 lsvg: Unable to find volume group testvg.")).

(** A machine whose group report lacks the line of the free units. *)
Definition short_group : env :=
  Env false (fun name => inr ("/usr/sbin/" ++ name)%string)
    (fun _ => (0, Sample.lsvg_report_short, "")).

(** The report of the volume in another group. *)
Definition lslv_report_elsewhere : string := Sample.text
  [ "LOGICAL VOLUME:     testlv                 VOLUME GROUP:   datavg";
    "MAX LPs:            512                    PP SIZE:        4 megabyte(s)";
    "LPs:                128                    PPs:            128";
    "INTER-POLICY:       maximum                RELOCATABLE:    yes" ].

Definition lv_elsewhere : lv_facts := LvFacts "testlv" "datavg" 512 "maximum".

(** A volume report cut before the line of the partitions. *)
Definition lslv_report_short : string := Sample.text
  [ "LOGICAL VOLUME:     testlv                 VOLUME GROUP:   testvg";
    "MAX LPs:            512                    PP SIZE:        4 megabyte(s)" ].

(** A volume report on one line: each of the four patterns of [parse_lv]
    matches it. *)
Definition lslv_report_one_line : string :=
  "LOGICAL VOLUME: testlv VOLUME GROUP: testvg LPs: 128 PPs: 128 PP SIZE: 4 megabyte(s) INTER-POLICY: maximum".

(** The sample machine without [mklv]. *)
Definition no_mklv : env :=
  Env false
    (fun name =>
       if String.eqb name "mklv"
       then inl "Failed to find required executable mklv"
       else inr ("/usr/sbin/" ++ name)%string)
    (Sample.run Sample.no_volume).

(** A mirrored volume of 10 MB on two disks, with an option. *)
Definition disks_task : params :=
  Params "testvg" "testlv" "jfs2" (Some "10M") "-x 4" 2 Present Minimum
    ["hdisk1"; "hdisk2"].

End More.

(** [mant * 2 ^ expo <= N], without leaving the integers. *)
Definition at_most (N : Z) (f : float) : Prop :=
  if 0 <=? expo f then mant f * 2 ^ expo f <= N
  else mant f <= N * 2 ^ (- expo f).

(** The policy a line of a volume report assigns. *)
Definition lv_policy_of (v : lv_vars) (r : option (lv_field * string))
  : option string :=
  match r with
  | Some (LvPolicy, t) => Some t
  | _ => v_policy v
  end.

(** In the loop of [parse_lv] the group is assigned with the name. *)
Definition named (v : lv_vars) : Prop :=
  v_name v <> None -> v_vg v <> None.

(** In [main], no size was given or [lv_size] is computed. *)
Definition size_ok (p : params) (this_vg : vg_facts) : Prop :=
  match size p with
  | None => True
  | Some s =>
      exists mb n,
        convert_size s = inr mb /\
        round_ppsize mb (vgf_pp_size this_vg) = Ok n
  end.

(** * Properties *)

(** ** binary64 *)

(** The model of [float(x) / b] and the Standard Library's specification
    of IEEE 754 give the same number on every pair of the grid. *)
Example model_agrees_with_SpecFloat :
  forallb Sample.agrees Sample.grid = true.
Proof. vm_compute. reflexivity. Qed.

Section Binary64.

Lemma rne_div_floor p q : p / q <= rne_div p q.
Proof.
  unfold rne_div. destruct (2 * (p mod q) ?= q); try lia.
  destruct (Z.even (p / q)); lia.
Qed.

Lemma rne_div_lower N p q : 0 < q -> N * q <= p -> N <= rne_div p q.
Proof.
  intros Hq H. apply Z.le_trans with (p / q); [|apply rne_div_floor].
  apply Z.div_le_lower_bound; lia.
Qed.

Lemma rne_div_one p : rne_div p 1 = p.
Proof.
  unfold rne_div. rewrite Z.mod_1_r, Z.div_1_r. reflexivity.
Qed.

Lemma scale_nonpos z k : k <= 0 -> scale z k = z.
Proof. intros H. unfold scale. rewrite Z.max_l by lia. simpl. lia. Qed.

Lemma scale_nonneg z k : 0 <= k -> scale z k = z * 2 ^ k.
Proof. intros H. unfold scale. rewrite Z.max_r by lia. reflexivity. Qed.

Lemma round_at_least N f : at_least N f -> N <= round f.
Proof.
  unfold at_least, round. destruct (0 <=? expo f) eqn:E; [trivial|].
  apply Z.leb_gt in E. intros H. apply rne_div_lower; [|exact H].
  apply Z.pow_pos_nonneg; lia.
Qed.

Lemma at_least_mant_pos f : at_least 1 f -> 0 < mant f.
Proof.
  unfold at_least. destruct (0 <=? expo f) eqn:E.
  - apply Z.leb_le in E. intros H.
    assert (0 < 2 ^ expo f) by (apply Z.pow_pos_nonneg; lia). nia.
  - apply Z.leb_gt in E. intros H.
    assert (0 < 2 ^ (- expo f)) by (apply Z.pow_pos_nonneg; lia). lia.
Qed.

(** [log2_quot a d] is not above the logarithm of the quotient. *)
Lemma log2_quot_lower a d :
  0 < a -> 0 < d ->
  scale d (log2_quot a d) <= scale a (- log2_quot a d).
Proof.
  intros Ha Hd. unfold log2_quot.
  set (l := Z.log2 a - Z.log2 d).
  destruct (scale d l <=? scale a (- l)) eqn:E.
  - apply Z.leb_le in E. exact E.
  - clear E.
    pose proof (Z.log2_spec a Ha) as [Ha1 _].
    pose proof (Z.log2_spec d Hd) as [_ Hd2].
    pose proof (Z.log2_nonneg a). pose proof (Z.log2_nonneg d).
    destruct (Z_le_gt_dec 1 l) as [Hl|Hl].
    + rewrite scale_nonneg, scale_nonpos by lia.
      assert (2 ^ Z.log2 a = 2 ^ Z.succ (Z.log2 d) * 2 ^ (l - 1)) as Heq.
      { rewrite <- Z.pow_add_r by lia. f_equal. lia. }
      assert (0 < 2 ^ (l - 1)) by (apply Z.pow_pos_nonneg; lia).
      nia.
    + rewrite scale_nonpos, scale_nonneg by lia.
      assert (2 ^ Z.succ (Z.log2 d) = 2 ^ Z.log2 a * 2 ^ (- (l - 1))) as Heq.
      { rewrite <- Z.pow_add_r by lia. f_equal. lia. }
      assert (0 < 2 ^ (- (l - 1))) by (apply Z.pow_pos_nonneg; lia).
      nia.
Qed.

Lemma log2_quot_upper a d : log2_quot a d <= Z.log2 a - Z.log2 d.
Proof.
  unfold log2_quot. destruct (_ <=? _); lia.
Qed.

Lemma at_least_normalize N m e :
  0 <= m -> at_least N (Float m e) -> at_least N (normalize m e).
Proof.
  intros Hm H. unfold normalize.
  destruct (Z.abs m =? 2 ^ 53) eqn:E; [|exact H].
  apply Z.eqb_eq in E. rewrite Z.abs_eq in E by lia. subst m.
  change (2 ^ 53 / 2) with (2 ^ 52).
  unfold at_least in *. simpl mant in *. simpl expo in *.
  destruct (0 <=? e) eqn:E1.
  - apply Z.leb_le in E1.
    replace (0 <=? e + 1) with true by (symmetry; apply Z.leb_le; lia).
    rewrite Z.pow_add_r by lia. change (2 ^ 53) with (2 ^ 52 * 2) in H.
    change (2 ^ 1) with 2. nia.
  - apply Z.leb_gt in E1.
    destruct (0 <=? e + 1) eqn:E2.
    + apply Z.leb_le in E2. assert (e = -1) by lia. subst e.
      simpl in *. lia.
    + apply Z.leb_gt in E2.
      replace (- e) with (1 + - (e + 1)) in H by lia.
      rewrite Z.pow_add_r in H by lia.
      change (2 ^ 1) with 2 in H. change (2 ^ 53) with (2 * 2 ^ 52) in H.
      lia.
Qed.

(** Rounding to the nearest float is not below an integer under [2 ^ 53]
    that the exact quotient reaches. *)
Lemma nearest_at_least N n d :
  0 < d -> 0 <= N < 2 ^ 53 -> N * d <= n -> at_least N (nearest n d).
Proof.
  intros Hd HN H. unfold nearest.
  destruct (n =? 0) eqn:E0.
  - apply Z.eqb_eq in E0. unfold at_least. simpl. nia.
  - apply Z.eqb_neq in E0. assert (0 < n) as Hn by nia.
    rewrite (Z.abs_eq n) by lia.
    set (e := Z.max (-1074) (log2_quot n d - 52)).
    assert (0 <= rne_div (scale n (- e)) (scale d e)) as Hm.
    { apply rne_div_lower.
      - unfold scale. apply Z.mul_pos_pos; [lia|].
        apply Z.pow_pos_nonneg; lia.
      - simpl. unfold scale.
        assert (0 < 2 ^ Z.max 0 (- e)) by (apply Z.pow_pos_nonneg; lia).
        nia. }
    apply at_least_normalize; [exact Hm|].
    unfold at_least. simpl mant. simpl expo.
    destruct (0 <=? e) eqn:Ee.
    + apply Z.leb_le in Ee.
      destruct (Z.eq_dec e 0) as [He|He].
      * rewrite He. rewrite !scale_nonpos by lia. simpl.
        rewrite Z.mul_1_r. apply rne_div_lower; lia.
      * assert (e = log2_quot n d - 52) as He' by lia.
        pose proof (log2_quot_lower n d Hn Hd) as Hl.
        rewrite scale_nonneg, scale_nonpos in Hl by lia.
        rewrite scale_nonpos, scale_nonneg by lia.
        assert (0 < 2 ^ e) by (apply Z.pow_pos_nonneg; lia).
        assert (2 ^ 52 <= rne_div n (d * 2 ^ e)).
        { apply rne_div_lower; [nia|].
          replace (log2_quot n d) with (52 + e) in Hl by lia.
          rewrite Z.pow_add_r in Hl by lia. lia. }
        assert (2 ^ 53 <= rne_div n (d * 2 ^ e) * 2 ^ e).
        { change (2 ^ 53) with (2 ^ 52 * 2).
          assert (2 <= 2 ^ e).
          { change 2 with (2 ^ 1) at 1. apply Z.pow_le_mono_r; lia. }
          nia. }
        lia.
    + apply Z.leb_gt in Ee.
      rewrite scale_nonneg, scale_nonpos by lia.
      apply rne_div_lower; [lia|].
      assert (0 < 2 ^ (- e)) by (apply Z.pow_pos_nonneg; lia). nia.
Qed.

Lemma expo_normalize m e : expo (normalize m e) <= e + 1.
Proof. unfold normalize. destruct (_ =? _); simpl; lia. Qed.

(** An integer below [2 ^ 53] is a float: the conversion is exact. *)
Lemma float_of_int_exact x :
  0 < x < 2 ^ 53 ->
  exists k, 0 <= k /\ float_of_int x = Ok (Float (x * 2 ^ k) (- k)).
Proof.
  intros Hx. exists (52 - Z.log2 x).
  assert (0 < x) as Hx0 by lia.
  pose proof (Z.log2_spec x Hx0) as [Hl1 Hl2].
  pose proof (Z.log2_nonneg x) as Hl0.
  assert (Z.log2 x < 53) as Hl3 by (apply Z.log2_lt_pow2; lia).
  split; [lia|].
  assert (log2_quot x 1 = Z.log2 x) as Hq.
  { unfold log2_quot. change (Z.log2 1) with 0. rewrite Z.sub_0_r.
    rewrite scale_nonneg, scale_nonpos by lia.
    replace (1 * 2 ^ Z.log2 x <=? x) with true; [reflexivity|].
    symmetry. apply Z.leb_le. lia. }
  unfold float_of_int, nearest.
  replace (x =? 0) with false by (symmetry; apply Z.eqb_neq; lia).
  rewrite (Z.abs_eq x), Hq by lia.
  rewrite Z.max_r by lia.
  rewrite scale_nonneg, scale_nonpos by lia.
  rewrite rne_div_one.
  replace (- (Z.log2 x - 52)) with (52 - Z.log2 x) by lia.
  assert (x * 2 ^ (52 - Z.log2 x) < 2 ^ 53) as Hm.
  { replace 53 with (Z.succ (Z.log2 x) + (52 - Z.log2 x)) by lia.
    rewrite Z.pow_add_r by lia.
    apply Z.mul_lt_mono_pos_r; [apply Z.pow_pos_nonneg; lia|lia]. }
  assert (0 < x * 2 ^ (52 - Z.log2 x)) as Hm0.
  { apply Z.mul_pos_pos; [lia|apply Z.pow_pos_nonneg; lia]. }
  unfold normalize.
  replace (Z.abs (x * 2 ^ (52 - Z.log2 x)) =? 2 ^ 53) with false
    by (symmetry; apply Z.eqb_neq; lia).
  unfold too_large. simpl expo.
  replace (971 <? Z.log2 x - 52) with false
    by (symmetry; apply Z.ltb_ge; lia).
  do 2 f_equal. lia.
Qed.

(** A positive integer below [2 ^ 1023] converts to a positive float. *)
Lemma float_of_int_pos b :
  0 < b < 2 ^ 1023 ->
  exists f, float_of_int b = Ok f /\ 0 < mant f.
Proof.
  intros Hb. exists (nearest b 1). split.
  - unfold float_of_int.
    replace (too_large (nearest b 1)) with false; [reflexivity|].
    symmetry. apply Z.ltb_ge. unfold nearest.
    replace (b =? 0) with false by (symmetry; apply Z.eqb_neq; lia).
    etransitivity; [apply expo_normalize|].
    pose proof (log2_quot_upper (Z.abs b) 1) as Hu.
    change (Z.log2 1) with 0 in Hu. rewrite Z.abs_eq in * by lia.
    assert (Z.log2 b < 1023) by (apply Z.log2_lt_pow2; lia).
    lia.
  - apply at_least_mant_pos. apply nearest_at_least; [lia| |lia].
    split; [lia|]. reflexivity.
Qed.

(** The quotient the module rounds is not below the integer quotient. *)
Lemma round_quotient_lower x base fx fb q :
  0 < x < 2 ^ 53 -> 0 < base < 2 ^ 1023 ->
  float_of_int x = Ok fx -> float_of_int base = Ok fb ->
  truediv fx fb = Ok q ->
  x / base <= round q.
Proof.
  intros Hx Hb Hfx Hfb Hq.
  destruct (float_of_int_exact x Hx) as (k & Hk & Ex).
  rewrite Ex in Hfx. injection Hfx as Hfx. subst fx.
  destruct (float_of_int_pos base Hb) as (fb' & Eb & Hmb).
  rewrite Eb in Hfb. injection Hfb as Hfb. subst fb'.
  unfold truediv in Hq.
  replace (mant fb =? 0) with false in Hq
    by (symmetry; apply Z.eqb_neq; lia).
  simpl mant in Hq. simpl expo in Hq.
  set (e := Z.min (- k) (expo fb)) in Hq.
  assert (0 < scale (mant fb) (expo fb - e)) as Hd.
  { unfold scale. apply Z.mul_pos_pos; [lia|apply Z.pow_pos_nonneg; lia]. }
  replace (0 <? scale (mant fb) (expo fb - e)) with true in Hq
    by (symmetry; apply Z.ltb_lt; exact Hd).
  injection Hq as Hq. subst q.
  apply round_at_least. apply nearest_at_least; [exact Hd| |].
  - split; [apply Z.div_pos; lia|].
    apply Z.le_lt_trans with x; [|lia].
    apply Z.div_le_upper_bound; nia.
  - destruct (Z_lt_le_dec base (2 ^ 53)) as [Hs|Hs].
    + assert (0 < base < 2 ^ 53) as Hb' by lia.
      destruct (float_of_int_exact base Hb') as (kb & Hkb & Eb').
      rewrite Eb' in Eb. injection Eb as Eb. subst fb.
      simpl mant in *. simpl expo in *.
      rewrite !scale_nonneg by lia.
      rewrite <- !Z.mul_assoc, <- !Z.pow_add_r by lia.
      replace (k + (- k - e)) with (- e) by lia.
      replace (kb + (- kb - e)) with (- e) by lia.
      assert (0 < 2 ^ (- e)) by (apply Z.pow_pos_nonneg; lia).
      pose proof (Z.mul_div_le x base ltac:(lia)). nia.
    + rewrite Z.div_small by lia. simpl.
      unfold scale. apply Z.mul_nonneg_nonneg; [|apply Z.pow_nonneg; lia].
      apply Z.mul_nonneg_nonneg; [lia|apply Z.pow_nonneg; lia].
Qed.

End Binary64.

(** ** round_ppsize *)

(** What [round_ppsize] returns is a multiple of the base. *)
Lemma round_ppsize_multiple x base r :
  round_ppsize x base = Ok r -> (base | r).
Proof.
  unfold round_ppsize.
  destruct (float_of_int x) as [fx|]; [|discriminate].
  destruct (float_of_int base) as [fb|]; [|discriminate].
  destruct (truediv fx fb) as [q|]; [|discriminate].
  intros H. injection H as <-.
  destruct (_ <? _).
  - exists (round q + 1). lia.
  - exists (round q). lia.
Qed.

(** C6 fails on the code: the float that stands for [2 ^ 54 + 2] is the
    one of [2 ^ 54]; with a base of 1 the product, [2 ^ 54], is below the
    value, the base is added once, and the result, [2 ^ 54 + 1], is still
    below the value.  So it is not true that every positive value with
    every positive base gets a multiple of the base that is not below
    it. *)
Lemma round_ppsize_under_allocates :
  float_of_int (2 ^ 54 + 2) = float_of_int (2 ^ 54)
  /\ round_ppsize (2 ^ 54 + 2) 1 = Ok (2 ^ 54 + 1)
  /\ ~ (forall x base, 0 < x -> 0 < base ->
          exists r, round_ppsize x base = Ok r /\ (base | r) /\ x <= r).
Proof.
  split; [vm_compute; reflexivity|]. split; [vm_compute; reflexivity|].
  intros H. destruct (H (2 ^ 54 + 2) 1) as (r & Er & _ & Hle); [lia|lia|].
  vm_compute in Er. injection Er as <-. vm_compute in Hle.
  apply Hle. reflexivity.
Qed.

(** Where the rounding is right: for a positive value and a positive
    base, a result of [round_ppsize] is a multiple of the base; and when
    the value is below [2 ^ 53] (and the base below [2 ^ 1023]) there is a
    result, and it is not below the value. *)
Theorem round_ppsize_aligned x base :
  0 < x -> 0 < base ->
  (forall r, round_ppsize x base = Ok r -> (base | r)) /\
  (x < 2 ^ 53 -> base < 2 ^ 1023 ->
   exists r, round_ppsize x base = Ok r /\ (base | r) /\ x <= r).
Proof.
  intros Hx Hb. split; [intros r; apply round_ppsize_multiple|].
  intros Hx' Hb'.
  destruct (float_of_int_exact x (conj Hx Hx')) as (k & Hk & Ex).
  destruct (float_of_int_pos base (conj Hb Hb')) as (fb & Eb & Hmb).
  assert (exists q, truediv (Float (x * 2 ^ k) (- k)) fb = Ok q) as (q & Eq).
  { unfold truediv.
    replace (mant fb =? 0) with false by (symmetry; apply Z.eqb_neq; lia).
    eexists; reflexivity. }
  pose proof (round_quotient_lower x base _ _ q
                (conj Hx Hx') (conj Hb Hb') Ex Eb Eq) as Hr.
  assert (exists r, round_ppsize x base = Ok r /\ x <= r) as (r & Er & Hle).
  { unfold round_ppsize. rewrite Ex, Eb, Eq.
    eexists; split; [reflexivity|].
    pose proof (Z.mod_pos_bound x base Hb).
    pose proof (Z.div_mod x base ltac:(lia)).
    destruct (base * round q <? x) eqn:E.
    - nia.
    - apply Z.ltb_ge in E. exact E. }
  exists r. split; [exact Er|]. split; [|exact Hle].
  apply (round_ppsize_multiple x base r Er).
Qed.

(** So for a size of 513 MB and units of 4 MB. *)
Lemma round_ppsize_aligned_witness :
  (0 < 513 /\ 0 < 4) /\
  (forall r, round_ppsize 513 4 = Ok r -> (4 | r)) /\
  (513 < 2 ^ 53 -> 4 < 2 ^ 1023 ->
   exists r, round_ppsize 513 4 = Ok r /\ (4 | r) /\ 513 <= r).
Proof.
  split; [lia|]. apply (round_ppsize_aligned 513 4); lia.
Defined.

(** ** Strings and [int()] *)

Section Strings.

Lemma chars_app a b :
  list_ascii_of_string (a ++ b)%string
  = list_ascii_of_string a ++ list_ascii_of_string b.
Proof. induction a as [|c a IH]; simpl; [reflexivity|now rewrite IH]. Qed.

Lemma last_char_snoc l c : last_char (l ++ [c]) = Some c.
Proof.
  induction l as [|d l IH]; [reflexivity|].
  simpl. destruct (l ++ [c]) eqn:E; [destruct l; discriminate|exact IH].
Qed.

Lemma but_last_snoc l c : but_last (l ++ [c]) = l.
Proof. apply removelast_last. Qed.

Lemma lstrip_head c l : is_int_space c = false -> lstrip (c :: l) = c :: l.
Proof. intros H. simpl. now rewrite H. Qed.

(** Nothing is stripped from a text without white space. *)
Lemma strip_solid l :
  Forall (fun c => is_int_space c = false) l -> strip l = l.
Proof.
  intros H. unfold strip.
  assert (forall k, Forall (fun c => is_int_space c = false) k ->
                    lstrip k = k) as Hl.
  { intros k Hk. destruct Hk; [reflexivity|now apply lstrip_head]. }
  rewrite (Hl l H). rewrite Hl by (apply Forall_rev; exact H).
  apply rev_involutive.
Qed.

Ltac by_cases_on c :=
  destruct c as [[|] [|] [|] [|] [|] [|] [|] [|]].

Lemma digit_not_space c : is_digit c = true -> is_int_space c = false.
Proof. by_cases_on c; vm_compute; congruence. Qed.

Lemma digit_not_sign c :
  is_digit c = true -> Ascii.eqb c "-" = false /\ Ascii.eqb c "+" = false.
Proof.
  by_cases_on c; intros H; vm_compute in H; try discriminate H;
    split; reflexivity.
Qed.

Lemma index_upper u : index (upper u) units = unit_index u.
Proof. by_cases_on u; reflexivity. Qed.

Lemma int_digits_cons a c l :
  is_digit c = true ->
  int_digits a (c :: l) = int_digits (10 * a + digit_val c) l.
Proof. intros H. cbn [int_digits]. rewrite H. reflexivity. Qed.

Lemma int_digits_total l : forall acc,
  Forall (fun c => is_digit c = true) l ->
  exists n, int_digits acc l = Some n.
Proof.
  induction l as [|c l IH]; intros acc H.
  - exists acc. reflexivity.
  - inversion H as [|? ? Hc Hl]; subst.
    rewrite int_digits_cons by exact Hc. apply IH, Hl.
Qed.

(** [int()] accepts every non-empty string of digits. *)
Lemma int_of_digits g :
  g <> [] -> Forall (fun c => is_digit c = true) g ->
  exists n, int (string_of_list_ascii g) = Ok n.
Proof.
  intros Hn Hd. unfold int, int_of_chars.
  rewrite list_ascii_of_string_of_list_ascii.
  rewrite strip_solid
    by (eapply Forall_impl; [|exact Hd]; apply digit_not_space).
  destruct Hd as [|c l Hc Hl]; [congruence|].
  destruct (digit_not_sign c Hc) as [-> ->].
  cbn [int_unsigned]. rewrite Hc.
  destruct (int_digits_total l (digit_val c) Hl) as (n & ->).
  exists n. reflexivity.
Qed.

End Strings.

Section Decimal.

(** One digit of the decimal writing of a number, read back. *)
Ltac digit_step :=
  cbn [NilEmpty.string_of_uint list_ascii_of_string Pos.of_uint_acc
         Pos.of_uint];
  rewrite int_digits_cons by reflexivity;
  match goal with
  | |- context [digit_val ?c] =>
      let v := eval vm_compute in (digit_val c) in
      change (digit_val c) with v
  end.

Lemma int_digits_acc d : forall acc,
  int_digits (Zpos acc) (list_ascii_of_string (NilEmpty.string_of_uint d))
  = Some (Zpos (Pos.of_uint_acc d acc)).
Proof.
  induction d; intros acc; [reflexivity|..];
    digit_step; rewrite <- IHd; f_equal; lia.
Qed.

Lemma int_digits_zero d :
  int_digits 0 (list_ascii_of_string (NilEmpty.string_of_uint d))
  = Some (Z.of_N (Pos.of_uint d)).
Proof.
  induction d; [reflexivity|..]; digit_step;
    [exact IHd|exact (int_digits_acc d _)..].
Qed.

Lemma uint_digits d :
  Forall (fun c => is_digit c = true)
    (list_ascii_of_string (NilEmpty.string_of_uint d)).
Proof. induction d; simpl; constructor; auto. Qed.

Lemma uint_solid d :
  Forall (fun c => is_int_space c = false)
    (list_ascii_of_string (NilEmpty.string_of_uint d)).
Proof.
  eapply Forall_impl; [|apply uint_digits]. apply digit_not_space.
Qed.

Lemma int_unsigned_digits l :
  l <> [] -> Forall (fun c => is_digit c = true) l ->
  int_unsigned l = int_digits 0 l.
Proof.
  intros Hn H. destruct H as [|c l Hc Hl]; [congruence|].
  simpl. rewrite Hc. reflexivity.
Qed.

Lemma pos_digits_nonempty p :
  list_ascii_of_string (NilEmpty.string_of_uint (Pos.to_uint p)) <> [].
Proof.
  pose proof (DecimalPos.Unsigned.of_to p) as H.
  destruct (Pos.to_uint p); simpl; discriminate.
Qed.

Lemma int_unsigned_pos p :
  int_unsigned
    (list_ascii_of_string (NilEmpty.string_of_uint (Pos.to_uint p)))
  = Some (Zpos p).
Proof.
  rewrite int_unsigned_digits by (apply pos_digits_nonempty || apply uint_digits).
  rewrite int_digits_zero, DecimalPos.Unsigned.of_to. reflexivity.
Qed.

Lemma pos_string p :
  NilZero.string_of_uint (Pos.to_uint p)
  = NilEmpty.string_of_uint (Pos.to_uint p).
Proof.
  pose proof (DecimalPos.Unsigned.of_to p) as H.
  destruct (Pos.to_uint p); try reflexivity. discriminate.
Qed.

(** [int(str(n)) == n]. *)
Lemma int_str n : int (str n) = Ok n.
Proof.
  unfold int, str. destruct n as [|p|p]; [reflexivity| |].
  - simpl. rewrite pos_string. unfold int_of_chars.
    rewrite strip_solid by apply uint_solid.
    pose proof (int_unsigned_pos p) as H.
    pose proof (uint_digits (Pos.to_uint p)) as Hd.
    destruct (list_ascii_of_string
                (NilEmpty.string_of_uint (Pos.to_uint p))) as [|c l] eqn:E;
      [discriminate|].
    inversion Hd as [|? ? Hc _]; subst.
    destruct (digit_not_sign c Hc) as [-> ->].
    rewrite H. reflexivity.
  - simpl. rewrite pos_string. unfold int_of_chars.
    change (list_ascii_of_string
              (String "-" (NilEmpty.string_of_uint (Pos.to_uint p))))
      with ("-"%char
              :: list_ascii_of_string
                   (NilEmpty.string_of_uint (Pos.to_uint p))).
    rewrite strip_solid
      by (constructor; [reflexivity|apply uint_solid]).
    simpl. rewrite int_unsigned_pos. reflexivity.
Qed.

End Decimal.

(** ** convert_size *)

(** C5: for a positive integer [n] written in decimal and followed by a
    unit letter, [convert_size] returns [n * 1024 ^ i] where [i] is the
    position of the letter in M, G, T, in either case; with any other
    letter it fails with "No valid size unit specified.". *)
Theorem convert_size_units n u :
  0 < n ->
  convert_size (str n ++ String u "")
  = match unit_index u with
    | Some i => inr (n * 1024 ^ Z.of_nat i)
    | None =>
        inl (FailJson InvalidSizeUnit "No valid size unit specified." None)
    end.
Proof.
  intros _. unfold convert_size.
  rewrite chars_app. simpl (list_ascii_of_string (String u "")).
  rewrite last_char_snoc, but_last_snoc, index_upper.
  destruct (unit_index u); [|reflexivity].
  rewrite string_of_list_ascii_of_string, int_str. reflexivity.
Qed.

(** C5 on "2g" and on "2K". *)
Lemma convert_size_units_witness :
  0 < 2 /\ convert_size "2g" = inr 2048 /\
  convert_size "2K"
  = inl (FailJson InvalidSizeUnit "No valid size unit specified." None).
Proof.
  split; [lia|]. split.
  - exact (convert_size_units 2 "g"%char ltac:(lia)).
  - exact (convert_size_units 2 "K"%char ltac:(lia)).
Defined.

(** C10, as stated, fails: before "1.5X" ends in a letter that is no
    unit, what precedes the letter is never read, and the failure is the
    reported one. *)
Lemma convert_size_reports_unit_first :
  ~ (forall s, int (prefix s) = Raise ValueError ->
               exists e, convert_size s = inl (Uncaught e)).
Proof.
  intros H. destruct (H "1.5X") as (e & He); [reflexivity|].
  vm_compute in He. discriminate He.
Qed.

(** C10, amended: the empty string raises [IndexError]; a string that
    ends in a unit letter and whose prefix [int()] rejects raises
    [ValueError], "1.5G" for one; a string that ends in any other
    character is reported as having no valid unit, whatever precedes
    it. *)
Theorem convert_size_unchecked_prefix s :
  (s = "" -> convert_size s = inl (Uncaught IndexError))
  /\ (forall c,
        last_char (list_ascii_of_string s) = Some c ->
        match unit_index c with
        | Some _ =>
            int (prefix s) = Raise ValueError ->
            convert_size s = inl (Uncaught ValueError)
        | None =>
            convert_size s
            = inl (FailJson InvalidSizeUnit "No valid size unit specified."
                     None)
        end)
  /\ convert_size "1.5G" = inl (Uncaught ValueError).
Proof.
  split; [intros ->; reflexivity|]. split; [|reflexivity].
  intros c Hc. unfold convert_size, prefix. rewrite Hc, index_upper.
  destruct (unit_index c); [|reflexivity].
  intros ->. reflexivity.
Qed.

(** C10 on "12.5m". *)
Lemma convert_size_unchecked_prefix_witness :
  int (prefix "12.5m") = Raise ValueError
  /\ convert_size "12.5m" = inl (Uncaught ValueError).
Proof.
  split; [reflexivity|].
  exact (proj1 (proj2 (convert_size_unchecked_prefix "12.5m"))
           "m"%char eq_refl eq_refl).
Defined.

(** ** Regular expressions *)

Section Regex.

Lemma longest_first_some {R : Type} (f : nat -> option R) lo n r :
  longest_first f lo n = Some r ->
  exists k, (lo <= k <= n)%nat /\ f k = Some r.
Proof.
  induction n as [|n IH]; simpl.
  - destruct (0 <? lo)%nat eqn:E; [discriminate|].
    apply Nat.ltb_ge in E.
    destruct (f 0%nat) eqn:F; [|discriminate].
    intros H. injection H as <-. exists 0%nat. split; [lia|exact F].
  - destruct (S n <? lo)%nat eqn:E; [discriminate|].
    apply Nat.ltb_ge in E.
    destruct (f (S n)) eqn:F.
    + intros H. injection H as <-. exists (S n). split; [lia|exact F].
    + intros H. destruct (IH H) as (k & Hk & Fk).
      exists k. split; [lia|exact Fk].
Qed.

(** Outside a group, a part of a pattern without groups only moves on in
    the text. *)
Lemma match_plain_prefix pre rest done m :
  forallb plain pre = true ->
  forall s,
    match_here (pre ++ rest) s None done = Some m ->
    exists s', match_here rest s' None done = Some m.
Proof.
  intros Hp. induction pre as [|t pre IH]; intros s H.
  - exists s. exact H.
  - simpl in Hp. apply andb_prop in Hp as [Ht Hp].
    specialize (IH Hp).
    destruct t; try discriminate; cbn [app match_here] in H.
    + destruct s as [|c s]; [discriminate|].
      destruct (accepts k c); [|discriminate].
      apply (IH s H).
    + apply longest_first_some in H as (n & _ & H). apply (IH _ H).
    + apply longest_first_some in H as (n & _ & H). apply (IH _ H).
Qed.

(** After the last group the groups are settled. *)
Lemma match_plain_suffix post done m :
  forallb plain post = true ->
  forall s, match_here post s None done = Some m -> m = rev done.
Proof.
  intros Hp. induction post as [|t post IH]; intros s H.
  - simpl in H. congruence.
  - simpl in Hp. apply andb_prop in Hp as [Ht Hp].
    specialize (IH Hp).
    destruct t; try discriminate; cbn [match_here] in H.
    + destruct s as [|c s]; [discriminate|].
      destruct (accepts k c); [|discriminate].
      apply (IH s H).
    + apply longest_first_some in H as (n & _ & H). apply (IH _ H).
    + apply longest_first_some in H as (n & _ & H). apply (IH _ H).
Qed.

(** A group around [k+] holds a non-empty run of characters of [k]. *)
Lemma match_group k rest s done m :
  match_here ([GOpen; Plus k; GClose] ++ rest) s None done = Some m ->
  exists n s',
    (1 <= n <= run k s)%nat /\
    match_here rest s' None (string_of_list_ascii (firstn n s) :: done)
    = Some m.
Proof.
  cbn [app match_here]. intros H.
  apply longest_first_some in H as (n & Hn & H).
  exists n, (skipn n s). split; [exact Hn|exact H].
Qed.

Lemma firstn_run k s n :
  (n <= run k s)%nat -> Forall (fun c => accepts k c = true) (firstn n s).
Proof.
  revert n. induction s as [|c s IH]; intros n Hn.
  - rewrite firstn_nil. constructor.
  - destruct n as [|n]; [constructor|].
    simpl in Hn. destruct (accepts k c) eqn:E; [|lia].
    simpl. constructor; [exact E|apply IH; lia].
Qed.

Lemma firstn_run_nonempty k s n :
  (1 <= n <= run k s)%nat -> firstn n s <> [].
Proof.
  intros Hn. destruct s as [|c s]; [simpl in Hn; lia|].
  destruct n; [lia|]. discriminate.
Qed.

Lemma search_from_some p s m :
  search_from p s = Some m ->
  exists s', match_here p s' None [] = Some m.
Proof.
  induction s as [|c s IH]; simpl.
  - destruct (match_here p [] None []) eqn:E; [|discriminate].
    intros H. injection H as <-. exists []. exact E.
  - destruct (match_here p (c :: s) None []) eqn:E.
    + intros H. injection H as <-. exists (c :: s). exact E.
    + exact IH.
Qed.

Lemma search_one_group k p line m :
  one_group k p -> search p line = Some m ->
  exists g, m = [string_of_list_ascii g] /\ g <> [] /\
            Forall (fun c => accepts k c = true) g.
Proof.
  intros (pre & post & -> & Hpre & Hpost) H.
  apply search_from_some in H as (s & H).
  apply (match_plain_prefix pre _ _ _ Hpre) in H as (s1 & H).
  apply match_group in H as (n & s2 & Hn & H).
  apply (match_plain_suffix post _ _ Hpost) in H.
  exists (firstn n s1). split; [exact H|]. split.
  - apply (firstn_run_nonempty k); exact Hn.
  - apply firstn_run; lia.
Qed.

(** [int()] never fails on what a group of digits took. *)
Lemma search_digits p line m :
  one_group Digit p -> search p line = Some m ->
  exists n, int (group m 1) = Ok n.
Proof.
  intros Hp H.
  destruct (search_one_group _ _ _ _ Hp H) as (g & -> & Hn & Hd).
  apply int_of_digits; assumption.
Qed.

Ltac one_group_by pre post :=
  exists pre, post; split; [reflexivity|split; reflexivity].

Lemma re_lps_group : one_group Digit re_lps.
Proof. one_group_by (lit "LPs:" ++ [Plus Space]) ([Star Dot] ++ lit "PPs"). Qed.

Lemma re_pp_size_group : one_group Digit re_pp_size.
Proof. one_group_by (lit "PP SIZE:" ++ [Plus Space]) (@nil tok). Qed.

Lemma re_total_group : one_group Digit re_total.
Proof.
  one_group_by (lit "TOTAL PP" ++ [Star Dot; One (Chr "("%char)]) (@nil tok).
Qed.

Lemma re_free_group : one_group Digit re_free.
Proof.
  one_group_by (lit "FREE PP" ++ [Star Dot; One (Chr "("%char)]) (@nil tok).
Qed.

(** The name on the name line of a volume report is not empty. *)
Lemma re_lv_name_group line m :
  search re_lv_name line = Some m -> negb (String.eqb (group m 1) "") = true.
Proof.
  intros H. apply search_from_some in H as (s & H).
  change re_lv_name with
    ((lit "LOGICAL VOLUME:" ++ [Plus Space])
       ++ [GOpen; Plus Word; GClose]
       ++ (([Plus Space] ++ lit "VOLUME GROUP:" ++ [Plus Space])
             ++ [GOpen; Plus Word; GClose] ++ [])) in H.
  apply match_plain_prefix in H as (s1 & H); [|reflexivity].
  apply match_group in H as (n1 & s2 & Hn1 & H).
  apply match_plain_prefix in H as (s3 & H); [|reflexivity].
  apply match_group in H as (n2 & s4 & Hn2 & H).
  simpl in H. injection H as <-.
  unfold group. simpl.
  pose proof (firstn_run_nonempty _ _ _ Hn1) as Hne.
  destruct (firstn n1 s1); [congruence|reflexivity].
Qed.

End Regex.

(** ** parse_lv *)

Section ParseLv.

(** A line never makes the loop raise, and the name is set on a name
    line only. *)
Lemma lv_line_name v line :
  exists v',
    lv_line v line = Ok v' /\
    truthy (v_name v') = names_lv line || truthy (v_name v).
Proof.
  unfold lv_line, names_lv.
  destruct (search re_lv_name line) as [m|] eqn:E1.
  { eexists; split; [reflexivity|]. simpl.
    apply (re_lv_name_group line m E1). }
  destruct (search re_lps line) as [m|] eqn:E2.
  { destruct (search_digits _ _ _ re_lps_group E2) as (n & ->).
    eexists; split; reflexivity. }
  destruct (search re_pp_size line) as [m|] eqn:E3.
  { destruct (search_digits _ _ _ re_pp_size_group E3) as (n & ->).
    eexists; split; reflexivity. }
  destruct (search re_policy line) as [m|] eqn:E4;
    eexists; split; reflexivity.
Qed.

Lemma lv_loop_name lines : forall v,
  exists v',
    for_lines lv_line v lines = Ok v' /\
    truthy (v_name v') = existsb names_lv lines || truthy (v_name v).
Proof.
  induction lines as [|line rest IH]; intros v.
  - exists v. split; reflexivity.
  - destruct (lv_line_name v line) as (v1 & E1 & H1).
    destruct (IH v1) as (v' & E' & H').
    exists v'. split.
    + simpl. rewrite E1. exact E'.
    + rewrite H', H1. simpl.
      destruct (names_lv line), (existsb names_lv rest); reflexivity.
Qed.

Lemma lv_result_none v :
  lv_result v = Ok None <-> truthy (v_name v) = false.
Proof.
  unfold lv_result. destruct (truthy (v_name v)).
  - split; [|discriminate].
    destruct (load (v_name v)); [|discriminate].
    destruct (load (v_vg v)); [|discriminate].
    destruct (load (v_lps v)); [|discriminate].
    destruct (load (v_pp_size v)); [|discriminate].
    destruct (load (v_policy v)); discriminate.
  - split; reflexivity.
Qed.

Lemma lv_result_size v f :
  lv_result v = Ok (Some f) ->
  exists lps pp_size,
    v_lps v = Some lps /\ v_pp_size v = Some pp_size /\
    lvf_size f = lps * pp_size.
Proof.
  unfold lv_result. destruct (truthy (v_name v)); [|discriminate].
  destruct (v_name v); [|discriminate].
  destruct (v_vg v); [|discriminate].
  destruct (v_lps v) as [lps|]; [|discriminate].
  destruct (v_pp_size v) as [pp|]; [|discriminate].
  destruct (v_policy v); [|discriminate].
  simpl. intros H. injection H as <-. exists lps, pp. auto.
Qed.

Lemma lv_line_numbers v line :
  exists v',
    lv_line v line = Ok v' /\
    (v_lps v', v_pp_size v') = lv_numbers v (lv_field_of line).
Proof.
  unfold lv_line, lv_field_of.
  destruct (search re_lv_name line) as [m|] eqn:E1.
  { eexists; split; reflexivity. }
  destruct (search re_lps line) as [m|] eqn:E2.
  { destruct (search_digits _ _ _ re_lps_group E2) as (n & E).
    rewrite E. eexists; split; [reflexivity|].
    simpl. unfold num. rewrite E. reflexivity. }
  destruct (search re_pp_size line) as [m|] eqn:E3.
  { destruct (search_digits _ _ _ re_pp_size_group E3) as (n & E).
    rewrite E. eexists; split; [reflexivity|].
    simpl. unfold num. rewrite E. reflexivity. }
  destruct (search re_policy line) as [m|] eqn:E4;
    eexists; split; reflexivity.
Qed.

Lemma lv_loop_numbers lines : forall v v',
  for_lines lv_line v lines = Ok v' ->
  v_lps v' = or_else (option_map num (lv_found LvLps lines)) (v_lps v) /\
  v_pp_size v'
  = or_else (option_map num (lv_found LvPpSize lines)) (v_pp_size v).
Proof.
  induction lines as [|line rest IH]; intros v v' H.
  - simpl in H. injection H as <-. split; reflexivity.
  - simpl in H.
    destruct (lv_line_numbers v line) as (v1 & E1 & H1).
    rewrite E1 in H. destruct (IH v1 v' H) as [Hl Hp].
    rewrite Hl, Hp. simpl.
    destruct (lv_found LvLps rest), (lv_found LvPpSize rest);
      destruct (lv_field_of line) as [[[] t]|]; simpl in H1;
      injection H1 as -> ->; split; reflexivity.
Qed.

Lemma lv_field_digits line f t :
  lv_field_of line = Some (f, t) -> f = LvLps \/ f = LvPpSize ->
  int t = Ok (num t).
Proof.
  unfold lv_field_of, num.
  destruct (search re_lv_name line) as [m|] eqn:E1.
  { intros H [Hf|Hf]; injection H as <- <-; discriminate Hf. }
  destruct (search re_lps line) as [m|] eqn:E2.
  { intros H _. injection H as <- <-.
    destruct (search_digits _ _ _ re_lps_group E2) as (n & ->).
    reflexivity. }
  destruct (search re_pp_size line) as [m|] eqn:E3.
  { intros H _. injection H as <- <-.
    destruct (search_digits _ _ _ re_pp_size_group E3) as (n & ->).
    reflexivity. }
  destruct (search re_policy line) as [m|] eqn:E4; [|discriminate].
  intros H [Hf|Hf]; injection H as <- <-; discriminate Hf.
Qed.

Lemma lv_found_digits lines f t :
  lv_found f lines = Some t -> f = LvLps \/ f = LvPpSize ->
  int t = Ok (num t).
Proof.
  induction lines as [|line rest IH]; simpl; [discriminate|].
  destruct (lv_found f rest) as [t'|].
  - intros H. injection H as <-. apply IH. reflexivity.
  - destruct (lv_field_of line) as [[f' t']|] eqn:E; [|discriminate].
    destruct (lv_field_eqb f f') eqn:Ef; [|discriminate].
    intros H Hf. injection H as <-.
    apply (lv_field_digits line f' t' E).
    destruct f, f'; try discriminate; exact Hf.
Qed.

End ParseLv.

(** C9: [parse_lv] returns [None] exactly when no line of the report
    shows the volume name with its group; and the size of the facts it
    returns is the product of the two numbers parsed, the count of
    partitions on the last line read as [LPs:] and the unit size on the
    last line read as [PP SIZE:]. *)
Theorem parse_lv_none_iff data :
  (parse_lv data = Ok None <-> existsb names_lv (splitlines data) = false)
  /\ forall f,
       parse_lv data = Ok (Some f) ->
       exists lps pp_size count unit_size,
         lv_found LvLps (splitlines data) = Some lps /\
         lv_found LvPpSize (splitlines data) = Some pp_size /\
         int lps = Ok count /\ int pp_size = Ok unit_size /\
         lvf_size f = count * unit_size.
Proof.
  unfold parse_lv.
  destruct (lv_loop_name (splitlines data) lv_vars0) as (v & E & H).
  rewrite E. simpl in H. rewrite orb_false_r in H. split.
  - rewrite lv_result_none, H. reflexivity.
  - intros f Hf. destruct (lv_result_size v f Hf) as (l & q & Hl & Hq & Hs).
    destruct (lv_loop_numbers _ _ _ E) as [Hl' Hq'].
    rewrite Hl in Hl'. rewrite Hq in Hq'. simpl in Hl', Hq'.
    destruct (lv_found LvLps (splitlines data)) as [lps|] eqn:El;
      [|discriminate].
    destruct (lv_found LvPpSize (splitlines data)) as [pp|] eqn:Ep;
      [|discriminate].
    simpl in Hl', Hq'. injection Hl' as ->. injection Hq' as ->.
    exists lps, pp, (num lps), (num pp).
    split; [reflexivity|]. split; [reflexivity|].
    split; [apply (lv_found_digits _ _ _ El); auto|].
    split; [apply (lv_found_digits _ _ _ Ep); auto|exact Hs].
Qed.

(** C9 on the report of a volume of 128 partitions of 4 MB. *)
Lemma parse_lv_none_iff_witness :
  parse_lv Sample.lslv_report = Ok (Some Sample.this_lv)
  /\ exists lps pp_size count unit_size,
       lv_found LvLps (splitlines Sample.lslv_report) = Some lps /\
       lv_found LvPpSize (splitlines Sample.lslv_report) = Some pp_size /\
       int lps = Ok count /\ int pp_size = Ok unit_size /\
       lvf_size Sample.this_lv = count * unit_size.
Proof.
  split; [vm_compute; reflexivity|].
  apply (proj2 (parse_lv_none_iff Sample.lslv_report) Sample.this_lv).
  vm_compute. reflexivity.
Defined.

(** ** parse_vg *)

Section ParseVg.

(** A line never makes the loop raise: it assigns the field it is read
    as. *)
Lemma vg_line_set v line : vg_line v line = Ok (vg_set v (vg_field_of line)).
Proof.
  unfold vg_line, vg_field_of.
  destruct (search re_vg_name line) as [m|] eqn:E1; [reflexivity|].
  destruct (search re_total line) as [m|] eqn:E2.
  { destruct (search_digits _ _ _ re_total_group E2) as (n & E).
    simpl. unfold num. rewrite E. reflexivity. }
  destruct (search re_pp_size line) as [m|] eqn:E3.
  { destruct (search_digits _ _ _ re_pp_size_group E3) as (n & E).
    simpl. unfold num. rewrite E. reflexivity. }
  destruct (search re_free line) as [m|] eqn:E4; [|reflexivity].
  destruct (search_digits _ _ _ re_free_group E4) as (n & E).
  simpl. unfold num. rewrite E. reflexivity.
Qed.

(** When the loop ends each variable holds what was found for its field,
    and what it held before when nothing was found. *)
Lemma vg_loop lines : forall v,
  exists v',
    for_lines vg_line v lines = Ok v' /\
    g_name v' = or_else (vg_found VgName lines) (g_name v) /\
    g_size v' = or_else (option_map num (vg_found VgTotal lines)) (g_size v) /\
    g_pp_size v'
    = or_else (option_map num (vg_found VgPpSize lines)) (g_pp_size v) /\
    g_free v' = or_else (option_map num (vg_found VgFree lines)) (g_free v).
Proof.
  induction lines as [|line rest IH]; intros v.
  - exists v. repeat split.
  - destruct (IH (vg_set v (vg_field_of line)))
      as (v' & E & Hn & Hs & Hp & Hf).
    exists v'. split; [simpl; rewrite vg_line_set; exact E|].
    rewrite Hn, Hs, Hp, Hf. simpl.
    destruct (vg_found VgName rest), (vg_found VgTotal rest),
      (vg_found VgPpSize rest), (vg_found VgFree rest);
      destruct (vg_field_of line) as [[[] t]|]; repeat split.
Qed.

Lemma vg_field_digits line f t :
  vg_field_of line = Some (f, t) -> f <> VgName -> int t = Ok (num t).
Proof.
  unfold vg_field_of, num.
  destruct (search re_vg_name line) as [m|] eqn:E1.
  { intros H. injection H as <- <-. congruence. }
  destruct (search re_total line) as [m|] eqn:E2.
  { intros H _. injection H as <- <-.
    destruct (search_digits _ _ _ re_total_group E2) as (n & ->).
    reflexivity. }
  destruct (search re_pp_size line) as [m|] eqn:E3.
  { intros H _. injection H as <- <-.
    destruct (search_digits _ _ _ re_pp_size_group E3) as (n & ->).
    reflexivity. }
  destruct (search re_free line) as [m|] eqn:E4; [|discriminate].
  intros H _. injection H as <- <-.
  destruct (search_digits _ _ _ re_free_group E4) as (n & ->).
  reflexivity.
Qed.

Lemma vg_found_digits lines f t :
  vg_found f lines = Some t -> f <> VgName -> int t = Ok (num t).
Proof.
  induction lines as [|line rest IH]; simpl; [discriminate|].
  destruct (vg_found f rest) as [t'|].
  - intros H. injection H as <-. apply IH. reflexivity.
  - destruct (vg_field_of line) as [[f' t']|] eqn:E; [|discriminate].
    destruct (vg_field_eqb f f') eqn:Ef; [|discriminate].
    intros H Hf. injection H as <-.
    apply (vg_field_digits line f' t' E).
    destruct f, f'; try discriminate; congruence.
Qed.

End ParseVg.

(** C2, as stated, fails: on a report without the line of the free
    units the parser returns no facts, it raises. *)
Lemma parse_vg_not_total :
  ~ (forall data, exists facts, parse_vg data = Ok facts).
Proof.
  intros H. destruct (H Sample.lsvg_report_short) as (facts & E).
  vm_compute in E. discriminate E.
Qed.

(** C2, amended: when each of the four fields is found on some line of the
    report, in whatever order the lines come, [parse_vg] returns the facts
    read from the last line of each field; when a field is found on no
    line, it raises [UnboundLocalError]. *)
Theorem parse_vg_found data :
  let lines := splitlines data in
  match vg_found VgName lines, vg_found VgTotal lines,
        vg_found VgFree lines, vg_found VgPpSize lines with
  | Some name, Some total, Some free, Some pp_size =>
      exists t f p,
        int total = Ok t /\ int free = Ok f /\ int pp_size = Ok p /\
        parse_vg data = Ok (VgFacts name t f p)
  | _, _, _, _ => parse_vg data = Raise UnboundLocalError
  end.
Proof.
  intros lines. unfold parse_vg. fold lines.
  destruct (vg_loop lines vg_vars0) as (v & E & Hn & Hs & Hp & Hf).
  rewrite E. unfold vg_result. rewrite Hn, Hs, Hp, Hf.
  destruct (vg_found VgName lines) as [name|]; [|reflexivity].
  destruct (vg_found VgTotal lines) as [total|] eqn:Et; [|reflexivity].
  destruct (vg_found VgFree lines) as [free|] eqn:Ef; [|reflexivity].
  destruct (vg_found VgPpSize lines) as [pp|] eqn:Ep; [|reflexivity].
  exists (num total), (num free), (num pp).
  repeat split;
    try (eapply vg_found_digits; [eassumption|discriminate]).
Qed.

(** The lines of a group report in the reverse order give the same
    facts. *)
Example parse_vg_reordered :
  parse_vg (Sample.text (rev (splitlines Sample.lsvg_report))) = Ok Sample.this_vg
  /\ parse_vg Sample.lsvg_report = Ok Sample.this_vg.
Proof. split; vm_compute; reflexivity. Qed.

(** ** main *)

(** Running [main] once the answers of the machine are known. *)
Ltac tidy := cbn -[fmt str Z.ltb String.eqb].

Ltac run_main :=
  unfold main, main_steps, bind, bin_path, command, when, try, call, ret,
    report, exit_json, fail_json, stop, no_size;
  repeat first
    [ match goal with H : _ = _ |- _ => rewrite H end
    | rewrite andb_false_r
    | rewrite String.eqb_refl
    | progress tidy ].

Lemma convert_size_nonempty s mb :
  convert_size s = inr mb -> String.eqb s "" = false.
Proof. destruct s; [discriminate|reflexivity]. Qed.

(** [convert_size] ends the run only by a failure or an exception. *)
Lemma convert_size_outcome s o : convert_size s = inl o -> o <> NoReport.
Proof.
  unfold convert_size.
  destruct (last_char _); [|intros H; injection H as <-; discriminate].
  destruct (index _ _); [|intros H; injection H as <-; discriminate].
  destruct (int _); [discriminate|].
  intros H; injection H as <-; discriminate.
Qed.

(** A run whose volume is to be present always ends in [exit_json], in
    [fail_json] or in an exception. *)
Lemma main_reports_unless_absent e p :
  snd (main e p) = NoReport -> state p = Absent.
Proof.
  unfold main, main_steps, bind, bin_path, command, when, try, call, ret,
    report, exit_json, fail_json, stop.
  repeat match goal with
         | |- context [match ?x with _ => _ end] =>
             match x with
             | context [match _ with _ => _ end] => fail 1
             | _ => destruct x eqn:?
             end
         | |- context [if ?x then _ else _] =>
             match x with
             | context [if _ then _ else _] => fail 1
             | context [match _ with _ => _ end] => fail 1
             | _ => destruct x eqn:?
             end
         | _ => progress tidy
         end; try discriminate; try reflexivity; try congruence.
  intros ->. exfalso. eapply convert_size_outcome; [eassumption|reflexivity].
Qed.

(** C3 fails on the code: when the volume is to be absent, [lslv] exits
    with 0 and no line of its report is read as the name line (here the
    name has a dash), [main] comes to its end without [exit_json] or
    [fail_json], and without a command that removes the volume. *)
Theorem absent_volume_unreported :
  parse_lv Sample.lslv_report_dashed = Ok None
  /\ main Sample.dashed_machine Sample.dashed_task
     = (["/usr/sbin/lsvg testvg"; "/usr/sbin/lslv data-lv"], NoReport).
Proof. split; vm_compute; reflexivity. Qed.

(** C1, as the specification states it, fails: it sets the count of
    allocation units against the free figure of the group.  With 1000
    free and units of 4 MB, the 2048 MB of "2G" are 512 units, which is
    not above 1000, and yet the run fails for lack of space: [main] sets
    the 2048 MB against the 1000, which the group report gives in MB. *)
Theorem create_compares_megabytes :
  parse_vg Sample.lsvg_report = Ok (VgFacts "testvg" 8000 1000 4)
  /\ convert_size "2G" = inr 2048
  /\ round_ppsize 2048 4 = Ok (512 * 4)
  /\ exceeds_free_units (512 * 4) (VgFacts "testvg" 8000 1000 4) = false
  /\ main (Sample.machine Sample.no_volume)
       (Sample.task (Some "2G") Present Maximum)
     = (Sample.reports,
        FailJson InsufficientSpaceError
          "Not enough free space in volume group testvg: 1000 MB free."
          None).
Proof. repeat split; vm_compute; reflexivity. Qed.

Section Observed.

(** The group exists and its report is parsed; the volume report came
    back. *)
Variables (e : env) (p : params).
Variables (lsvg lslv vg_info vg_err : string) (this_vg : vg_facts).
Variables (rc : Z) (lv_info lv_err : string).

Hypothesis lsvg_found : get_bin_path e "lsvg" = inr lsvg.
Hypothesis lslv_found : get_bin_path e "lslv" = inr lslv.
Hypothesis group_report :
  run_command e (fmt [lsvg; " "; vg p]) = (0, vg_info, vg_err).
Hypothesis group_parsed : parse_vg vg_info = Ok this_vg.
Hypothesis volume_report :
  run_command e (fmt [lslv; " "; lv p]) = (rc, lv_info, lv_err).

(** C8: the volume is to be present, none is observed and no size was
    given: the run fails with "No size given." after the two reports,
    before any other command. *)
Theorem create_without_size :
  state p = Present -> size p = None -> parse_lv lv_info = Ok None ->
  main e p
  = ([fmt [lsvg; " "; vg p]; fmt [lslv; " "; lv p]],
     FailJson MissingSizeError "No size given." None).
Proof.
  intros Hs Hz Hl. run_main. reflexivity.
Qed.

Section Sized.

(** A size was given, converted and aligned to [n] MB. *)
Variables (s : string) (mb n : Z).
Hypothesis size_given : size p = Some s.
Hypothesis size_converted : convert_size s = inr mb.
Hypothesis size_aligned : round_ppsize mb (vgf_pp_size this_vg) = Ok n.

(** C1, amended: the volume is to be present, none is observed and the
    size given is aligned to [n] MB: the run fails for lack of space
    exactly when [n], in MB, exceeds the free figure of the group, which
    the group report gives in MB; no count of units is compared.  With
    1000 free, units of 4 MB and a size of "512M", which is aligned to
    512 MB, the volume is created with 512 MB, since 512 is not above
    1000. *)
Theorem create_needs_free_space :
  state p = Present -> parse_lv lv_info = Ok None ->
  ((exists msg diag,
      snd (main e p) = FailJson InsufficientSpaceError msg diag)
   <-> vgf_free this_vg < n)
  /\ (parse_vg Sample.lsvg_report = Ok (VgFacts "testvg" 8000 1000 4)
      /\ convert_size "512M" = inr 512
      /\ round_ppsize 512 4 = Ok (128 * 4)
      /\ main (Sample.machine Sample.no_volume)
           (Sample.task (Some "512M") Present Maximum)
         = (Sample.reports
              ++ [" /usr/sbin/mklv -t jfs2 -y testlv -c 1  -e x  testvg 512M "],
            ExitJson true "Logical volume testlv created.")).
Proof.
  intros Hs Hl. split; [|repeat split; vm_compute; reflexivity].
  pose proof (convert_size_nonempty s mb size_converted) as Hne.
  run_main.
  destruct (vgf_free this_vg <? n) eqn:E.
  - apply Z.ltb_lt in E. tidy. split; [intros _; exact E|].
    intros _. eexists _, _. reflexivity.
  - apply Z.ltb_ge in E. tidy.
    destruct (get_bin_path e "mklv") as [msg0|path]; tidy.
    + split; [|lia]. intros (msg & diag & H). discriminate H.
    + match goal with
      | |- context [run_command e ?c] =>
          destruct (run_command e c) as [[rc' out] err]
      end.
      destruct (rc' =? 0); tidy; (split; [|lia]);
        intros (msg & diag & H); discriminate H.
Qed.

Variable this_lv : lv_facts.
Hypothesis volume_parsed : parse_lv lv_info = Ok (Some this_lv).
Hypothesis desired_present : state p = Present.

(** C7: the volume is to be present and is observed with another policy
    and another size than the ones wanted: the one command run after the
    two reports is the change of policy, and its exit code decides the
    outcome; no command resizes the volume. *)
Theorem policy_change_comes_first (chlv : string) :
  lvf_policy this_lv <> policy_name (policy p) ->
  n <> lvf_size this_lv ->
  get_bin_path e "chlv" = inr chlv ->
  let cmd :=
    fmt [if check_mode e then "echo " else ""; " "; chlv; " -e ";
         match policy p with Maximum => "x" | Minimum => "m" end; " ";
         lvf_name this_lv] in
  main e p
  = ([fmt [lsvg; " "; vg p]; fmt [lslv; " "; lv p]; cmd],
     let '(rc, out, err) := run_command e cmd in
     if rc =? 0 then
       ExitJson true
         (fmt ["Logical volume "; lv p; " policy changed: ";
               policy_name (policy p); "."])
     else
       FailJson ExternalCommandError
         (fmt ["Failed to change logical volume "; lv p; " policy."])
         (Some (rc, out, err))).
Proof.
  intros Hp _ Hc cmd. apply String.eqb_neq in Hp.
  pose proof (convert_size_nonempty s mb size_converted) as Hne.
  run_main. fold cmd.
  destruct (run_command e cmd) as [[rc' out] err].
  destruct (rc' =? 0); reflexivity.
Qed.

(** C4: the volume is to be present and is observed in the wanted group
    with the wanted policy, with a size of [lvf_size this_lv]; the size
    given is aligned to [n].  The volume is extended by the difference
    exactly when [n] is larger, the run ends unchanged with "size is
    already" exactly when the two are equal, and it fails with "No
    shrinking" exactly when [n] is smaller. *)
Theorem resize_only_up (extendlv : string) :
  lvf_policy this_lv = policy_name (policy p) ->
  lvf_vg this_lv = vg p ->
  get_bin_path e "extendlv" = inr extendlv ->
  let cmd :=
    fmt [if check_mode e then "echo " else ""; " "; extendlv; " "; lv p;
         " "; str (n - lvf_size this_lv); "M"] in
  (fst (main e p) = [fmt [lsvg; " "; vg p]; fmt [lslv; " "; lv p]; cmd]
   <-> lvf_size this_lv < n)
  /\ (snd (main e p)
      = ExitJson false
          (fmt ["Logical volume "; lv p; " size is already "; str n; "MB."])
      <-> n = lvf_size this_lv)
  /\ (snd (main e p)
      = FailJson ShrinkNotPermittedError
          (fmt ["No shrinking of Logical Volume "; lv p;
                " permitted. Current size: "; str (lvf_size this_lv); " MB"])
          None
      <-> n < lvf_size this_lv).
Proof.
  intros Hp Hv Hx cmd.
  pose proof (convert_size_nonempty s mb size_converted) as Hne.
  run_main. fold cmd.
  destruct (lvf_size this_lv <? n) eqn:E1.
  - apply Z.ltb_lt in E1. tidy.
    destruct (run_command e cmd) as [[rc' out] err].
    destruct (rc' =? 0); tidy;
      (split; [tauto|]); split; (split; [discriminate|lia]).
  - apply Z.ltb_ge in E1.
    destruct (n <? lvf_size this_lv) eqn:E2.
    + apply Z.ltb_lt in E2. tidy.
      split; [split; [discriminate|lia]|].
      split; [split; [discriminate|lia]|tauto].
    + apply Z.ltb_ge in E2. tidy.
      split; [split; [discriminate|lia]|].
      split; [split; [lia|reflexivity]|].
      split; [discriminate|lia].
Qed.

End Sized.

End Observed.

(** ** The properties on the sample machine *)

(** C8 where [lslv] finds no volume and no size is given. *)
Lemma create_without_size_witness :
  main (Sample.machine Sample.no_volume) (Sample.task None Present Maximum)
  = (Sample.reports, FailJson MissingSizeError "No size given." None).
Proof.
  refine (create_without_size
            (Sample.machine Sample.no_volume)
            (Sample.task None Present Maximum)
            "/usr/sbin/lsvg" "/usr/sbin/lslv" Sample.lsvg_report ""
            Sample.this_vg 1 "" (snd Sample.no_volume)
            _ _ _ _ _ _ _ _);
    vm_compute; reflexivity.
Defined.

(** C1 where 2 GB are asked of a group with 1000 MB free. *)
Lemma create_needs_free_space_witness :
  (exists msg diag,
     snd (main (Sample.machine Sample.no_volume)
            (Sample.task (Some "2G") Present Maximum))
     = FailJson InsufficientSpaceError msg diag)
  <-> 1000 < 2048.
Proof.
  refine (proj1 (create_needs_free_space
                   (Sample.machine Sample.no_volume)
                   (Sample.task (Some "2G") Present Maximum)
                   "/usr/sbin/lsvg" "/usr/sbin/lslv" Sample.lsvg_report ""
                   Sample.this_vg 1 "" (snd Sample.no_volume)
                   _ _ _ _ _ "2G" 2048 2048 _ _ _ _ _));
    vm_compute; reflexivity.
Defined.

(** C7 where a volume of 512 MB with the policy maximum is wanted with
    1 GB and the policy minimum. *)
Lemma policy_change_comes_first_witness :
  main (Sample.machine Sample.volume) (Sample.task (Some "1G") Present Minimum)
  = (Sample.reports ++ [" /usr/sbin/chlv -e m testlv"],
     ExitJson true "Logical volume testlv policy changed: minimum.").
Proof.
  refine (policy_change_comes_first
            (Sample.machine Sample.volume)
            (Sample.task (Some "1G") Present Minimum)
            "/usr/sbin/lsvg" "/usr/sbin/lslv" Sample.lsvg_report ""
            Sample.this_vg 0 Sample.lslv_report ""
            _ _ _ _ _ "1G" 1024 1024 _ _ _ Sample.this_lv _ _
            "/usr/sbin/chlv" _ _ _);
    try (vm_compute; reflexivity); vm_compute; discriminate.
Defined.

(** C4 where a volume of 512 MB is wanted with 1200 MB. *)
Lemma resize_only_up_witness :
  fst (main (Sample.machine Sample.volume)
         (Sample.task (Some "1200M") Present Maximum))
  = Sample.reports ++ [" /usr/sbin/extendlv testlv 688M"]
  <-> 512 < 1200.
Proof.
  refine (proj1 (resize_only_up
                   (Sample.machine Sample.volume)
                   (Sample.task (Some "1200M") Present Maximum)
                   "/usr/sbin/lsvg" "/usr/sbin/lslv" Sample.lsvg_report ""
                   Sample.this_vg 0 Sample.lslv_report ""
                   _ _ _ _ _ "1200M" 1200 1200 _ _ _ Sample.this_lv _ _
                   "/usr/sbin/extendlv" _ _ _));
    vm_compute; reflexivity.
Defined.

(** * Further properties *)

(** ** round_ppsize: the upper side *)

Section Binary64Upper.

Lemma rne_div_upper N p q : 0 < q -> p <= N * q -> rne_div p q <= N.
Proof.
  intros Hq H. unfold rne_div.
  pose proof (Z.div_mod p q ltac:(lia)) as Hd.
  pose proof (Z.mod_pos_bound p q Hq) as Hm.
  destruct (Z.eq_dec (p mod q) 0) as [E|E].
  - rewrite E.
    replace (2 * 0 ?= q) with Lt
      by (symmetry; apply Z.compare_lt_iff; lia).
    nia.
  - assert (p / q < N) by nia.
    destruct (2 * (p mod q) ?= q); try lia.
    destruct (Z.even (p / q)); lia.
Qed.

Lemma round_at_most N f : at_most N f -> round f <= N.
Proof.
  unfold at_most, round. destruct (0 <=? expo f) eqn:E; [trivial|].
  apply Z.leb_gt in E. intros H. apply rne_div_upper; [|exact H].
  apply Z.pow_pos_nonneg; lia.
Qed.

Lemma at_most_normalize N m e :
  0 <= m -> at_most N (Float m e) -> at_most N (normalize m e).
Proof.
  intros Hm H. unfold normalize.
  destruct (Z.abs m =? 2 ^ 53) eqn:E; [|exact H].
  apply Z.eqb_eq in E. rewrite Z.abs_eq in E by lia. subst m.
  change (2 ^ 53 / 2) with (2 ^ 52).
  unfold at_most in *. simpl mant in *. simpl expo in *.
  destruct (0 <=? e) eqn:E1.
  - apply Z.leb_le in E1.
    replace (0 <=? e + 1) with true by (symmetry; apply Z.leb_le; lia).
    rewrite Z.pow_add_r by lia. change (2 ^ 53) with (2 ^ 52 * 2) in H.
    change (2 ^ 1) with 2. nia.
  - apply Z.leb_gt in E1.
    destruct (0 <=? e + 1) eqn:E2.
    + apply Z.leb_le in E2. assert (e = -1) by lia. subst e.
      simpl in *. lia.
    + apply Z.leb_gt in E2.
      replace (- e) with (1 + - (e + 1)) in H by lia.
      rewrite Z.pow_add_r in H by lia.
      change (2 ^ 1) with 2 in H. change (2 ^ 53) with (2 * 2 ^ 52) in H.
      lia.
Qed.

(** Rounding to the nearest float is not above an integer under [2 ^ 53]
    that the exact quotient does not exceed. *)
Lemma nearest_at_most N n d :
  0 < d -> 0 <= n -> 0 <= N < 2 ^ 53 -> n <= N * d ->
  at_most N (nearest n d).
Proof.
  intros Hd Hn0 HN H. unfold nearest.
  destruct (n =? 0) eqn:E0.
  - unfold at_most. simpl. lia.
  - apply Z.eqb_neq in E0. assert (0 < n) as Hn by lia.
    rewrite (Z.abs_eq n) by lia.
    assert (log2_quot n d <= 52) as Hq.
    { destruct (Z_le_gt_dec (log2_quot n d) 52) as [?|Hgt]; [assumption|].
      exfalso. pose proof (log2_quot_lower n d Hn Hd) as Hl.
      rewrite scale_nonneg, scale_nonpos in Hl by lia.
      assert (2 ^ 53 <= 2 ^ log2_quot n d)
        by (apply Z.pow_le_mono_r; lia).
      nia. }
    set (e := Z.max (-1074) (log2_quot n d - 52)).
    assert (e <= 0) as He by lia.
    rewrite (scale_nonneg n), (scale_nonpos d) by lia.
    assert (0 < 2 ^ (- e)) as Hp by (apply Z.pow_pos_nonneg; lia).
    apply at_most_normalize.
    + apply rne_div_lower; [lia|nia].
    + unfold at_most. simpl mant. simpl expo.
      destruct (0 <=? e) eqn:Ee.
      * apply Z.leb_le in Ee. assert (e = 0) as -> by lia.
        simpl. rewrite Z.mul_1_r. apply rne_div_upper; lia.
      * apply rne_div_upper; [lia|nia].
Qed.

(** The quotient the module rounds is not above the integer quotient
    rounded up. *)
Lemma round_quotient_upper x base fx fb q :
  0 < x < 2 ^ 53 -> 0 < base < 2 ^ 53 ->
  float_of_int x = Ok fx -> float_of_int base = Ok fb ->
  truediv fx fb = Ok q ->
  round q <= (x + base - 1) / base.
Proof.
  intros Hx Hb Hfx Hfb Hq.
  destruct (float_of_int_exact x Hx) as (k & Hk & Ex).
  rewrite Ex in Hfx. injection Hfx as Hfx. subst fx.
  destruct (float_of_int_exact base Hb) as (kb & Hkb & Eb).
  rewrite Eb in Hfb. injection Hfb as Hfb. subst fb.
  unfold truediv in Hq. simpl mant in Hq. simpl expo in Hq.
  assert (0 < 2 ^ kb) by (apply Z.pow_pos_nonneg; lia).
  assert (0 < 2 ^ k) by (apply Z.pow_pos_nonneg; lia).
  replace (base * 2 ^ kb =? 0) with false in Hq
    by (symmetry; apply Z.eqb_neq; nia).
  set (e := Z.min (- k) (- kb)) in Hq.
  rewrite !scale_nonneg in Hq by lia.
  rewrite <- !Z.mul_assoc, <- !Z.pow_add_r in Hq by lia.
  replace (k + (- k - e)) with (- e) in Hq by lia.
  replace (kb + (- kb - e)) with (- e) in Hq by lia.
  assert (0 < 2 ^ (- e)) by (apply Z.pow_pos_nonneg; lia).
  replace (0 <? base * 2 ^ (- e)) with true in Hq
    by (symmetry; apply Z.ltb_lt; nia).
  injection Hq as Hq. subst q.
  pose proof (Z.div_mod (x + base - 1) base ltac:(lia)) as Hd.
  pose proof (Z.mod_pos_bound (x + base - 1) base ltac:(lia)) as Hm.
  apply round_at_most. apply nearest_at_most; [nia|nia| |nia].
  split; [apply Z.div_pos; lia|].
  apply Z.le_lt_trans with x; [|lia].
  apply Z.div_le_upper_bound; nia.
Qed.

End Binary64Upper.

(** Below [2 ^ 53] the result of [round_ppsize] is the value divided by
    the base, rounded up, times the base. *)
Lemma round_ppsize_ceiling x base :
  0 < x < 2 ^ 53 -> 0 < base < 2 ^ 53 ->
  round_ppsize x base = Ok (base * ((x + base - 1) / base)).
Proof.
  intros Hx Hb.
  destruct (float_of_int_exact x Hx) as (k & Hk & Ex).
  destruct (float_of_int_exact base Hb) as (kb & Hkb & Eb).
  assert (exists q, truediv (Float (x * 2 ^ k) (- k))
                      (Float (base * 2 ^ kb) (- kb)) = Ok q) as (q & Eq).
  { unfold truediv. simpl mant.
    assert (0 < 2 ^ kb) by (apply Z.pow_pos_nonneg; lia).
    replace (base * 2 ^ kb =? 0) with false
      by (symmetry; apply Z.eqb_neq; nia).
    eexists; reflexivity. }
  assert (0 < base < 2 ^ 1023) as Hb'.
  { split; [lia|]. apply Z.lt_trans with (2 ^ 53); [lia|].
    apply Z.pow_lt_mono_r; lia. }
  pose proof (round_quotient_lower x base _ _ q Hx Hb' Ex Eb Eq) as Hlo.
  pose proof (round_quotient_upper x base _ _ q Hx Hb Ex Eb Eq) as Hhi.
  unfold round_ppsize. rewrite Ex, Eb, Eq. f_equal.
  pose proof (Z.div_mod x base ltac:(lia)) as Hd.
  pose proof (Z.mod_pos_bound x base ltac:(lia)) as Hm.
  destruct (Z.eq_dec (x mod base) 0) as [E|E].
  - assert ((x + base - 1) / base = x / base) as Hc.
    { symmetry. apply Z.div_unique with (base - 1); lia. }
    rewrite Hc in *. assert (round q = x / base) as -> by lia.
    replace (base * (x / base) <? x) with false; [reflexivity|].
    symmetry. apply Z.ltb_ge. lia.
  - assert ((x + base - 1) / base = x / base + 1) as Hc.
    { symmetry. apply Z.div_unique with (x mod base - 1); lia. }
    rewrite Hc in *.
    destruct (Z.eq_dec (round q) (x / base)) as [Er|Er].
    + rewrite Er.
      replace (base * (x / base) <? x) with true; [lia|].
      symmetry. apply Z.ltb_lt. lia.
    + assert (round q = x / base + 1) as -> by lia.
      replace (base * (x / base + 1) <? x) with false; [reflexivity|].
      symmetry. apply Z.ltb_ge. lia.
Qed.

(** X1: for a value and a base below [2 ^ 53], [round_ppsize] returns the
    least multiple of the base that is not below the value: a multiple,
    not below the value, and less than one base above it. *)
Theorem round_ppsize_least_multiple x base :
  0 < x < 2 ^ 53 -> 0 < base < 2 ^ 53 ->
  exists r,
    round_ppsize x base = Ok r /\ (base | r) /\ x <= r < x + base.
Proof.
  intros Hx Hb. exists (base * ((x + base - 1) / base)).
  split; [apply round_ppsize_ceiling; assumption|].
  split; [exists ((x + base - 1) / base); lia|].
  pose proof (Z.div_mod (x + base - 1) base ltac:(lia)) as Hd.
  pose proof (Z.mod_pos_bound (x + base - 1) base ltac:(lia)) as Hm.
  lia.
Qed.

(** X1 on 513 MB and units of 4 MB. *)
Lemma round_ppsize_least_multiple_witness :
  exists r, round_ppsize 513 4 = Ok r /\ (4 | r) /\ 513 <= r < 513 + 4.
Proof. apply (round_ppsize_least_multiple 513 4); lia. Defined.

(** X2: a size that is already a multiple of the base is returned as it
    is. *)
Theorem round_ppsize_fixes_multiples k base :
  0 < k -> 0 < base < 2 ^ 53 -> k * base < 2 ^ 53 ->
  round_ppsize (k * base) base = Ok (k * base).
Proof.
  intros Hk Hb Hx.
  rewrite round_ppsize_ceiling by nia. f_equal.
  replace (k * base + base - 1) with (base - 1 + k * base) by lia.
  rewrite Z.div_add by lia. rewrite Z.div_small by lia. lia.
Qed.

(** X2 on 128 units of 4 MB. *)
Lemma round_ppsize_fixes_multiples_witness : round_ppsize 512 4 = Ok 512.
Proof. apply (round_ppsize_fixes_multiples 128 4); lia. Defined.

(** X3: with a base of zero [round_ppsize] never returns: it raises
    [ZeroDivisionError] for a value a float can hold. *)
Theorem round_ppsize_zero_base x :
  (forall r, round_ppsize x 0 <> Ok r)
  /\ (0 < x < 2 ^ 53 -> round_ppsize x 0 = Raise ZeroDivisionError).
Proof.
  split.
  - intros r. unfold round_ppsize.
    destruct (float_of_int x); [|discriminate].
    change (float_of_int 0) with (Ok (Float 0 0)).
    unfold truediv. simpl. discriminate.
  - intros Hx. unfold round_ppsize.
    destruct (float_of_int_exact x Hx) as (k & _ & ->).
    reflexivity.
Qed.

(** X3 on 512 MB. *)
Lemma round_ppsize_zero_base_witness :
  round_ppsize 512 0 = Raise ZeroDivisionError.
Proof. apply (proj2 (round_ppsize_zero_base 512)). lia. Defined.

(** ** convert_size: sizes that are not positive *)

(** X4: a size of zero or below is converted like any other: the sign is
    read by [int()] and nothing rejects it. *)
Theorem convert_size_not_positive n u i :
  n <= 0 -> unit_index u = Some i ->
  convert_size (str n ++ String u "") = inr (n * 1024 ^ Z.of_nat i).
Proof.
  intros _ Hu. unfold convert_size.
  rewrite chars_app. simpl (list_ascii_of_string (String u "")).
  rewrite last_char_snoc, but_last_snoc, index_upper, Hu.
  rewrite string_of_list_ascii_of_string, int_str. reflexivity.
Qed.

(** X4 on "-5G". *)
Lemma convert_size_not_positive_witness : convert_size "-5G" = inr (-5120).
Proof.
  exact (convert_size_not_positive (-5) "G"%char 1%nat ltac:(lia) eq_refl).
Defined.

(** ** parse_lv: when it raises *)

Section ParseLvRaises.

Lemma lv_line_policy v line :
  exists v',
    lv_line v line = Ok v' /\
    v_policy v' = lv_policy_of v (lv_field_of line) /\
    (named v -> named v').
Proof.
  unfold lv_line, lv_field_of, named.
  destruct (search re_lv_name line) as [m|] eqn:E1.
  { eexists; split; [reflexivity|]. split; [reflexivity|].
    simpl. intros _ _. discriminate. }
  destruct (search re_lps line) as [m|] eqn:E2.
  { destruct (search_digits _ _ _ re_lps_group E2) as (n & E).
    rewrite E. eexists; split; [reflexivity|]. split; [reflexivity|].
    simpl. trivial. }
  destruct (search re_pp_size line) as [m|] eqn:E3.
  { destruct (search_digits _ _ _ re_pp_size_group E3) as (n & E).
    rewrite E. eexists; split; [reflexivity|]. split; [reflexivity|].
    simpl. trivial. }
  destruct (search re_policy line) as [m|] eqn:E4;
    (eexists; split; [reflexivity|]); (split; [reflexivity|]);
    simpl; trivial.
Qed.

(** When the loop ends the policy is the one found last, and the group
    is assigned if the name is. *)
Lemma lv_loop_policy lines : forall v v',
  for_lines lv_line v lines = Ok v' ->
  v_policy v' = or_else (lv_found LvPolicy lines) (v_policy v) /\
  (named v -> named v').
Proof.
  induction lines as [|line rest IH]; intros v v' H.
  - simpl in H. injection H as <-. split; [reflexivity|trivial].
  - simpl in H.
    destruct (lv_line_policy v line) as (v1 & E1 & H1 & N1).
    rewrite E1 in H. destruct (IH v1 v' H) as [Hp Hn].
    split; [|tauto].
    rewrite Hp, H1. simpl.
    destruct (lv_found LvPolicy rest);
      destruct (lv_field_of line) as [[[] t]|]; reflexivity.
Qed.

(** What the loop of [parse_lv] leaves in the variables. *)
Lemma lv_loop_end data :
  exists v,
    for_lines lv_line lv_vars0 (splitlines data) = Ok v /\
    truthy (v_name v) = existsb names_lv (splitlines data) /\
    v_lps v = option_map num (lv_found LvLps (splitlines data)) /\
    v_pp_size v = option_map num (lv_found LvPpSize (splitlines data)) /\
    v_policy v = lv_found LvPolicy (splitlines data) /\
    named v.
Proof.
  destruct (lv_loop_name (splitlines data) lv_vars0) as (v & E & H).
  simpl in H. rewrite orb_false_r in H.
  destruct (lv_loop_numbers _ _ _ E) as [Hl Hq].
  destruct (lv_loop_policy _ _ _ E) as [Hp Hn].
  exists v. split; [exact E|]. split; [exact H|].
  split; [rewrite Hl; destruct (lv_found LvLps _); reflexivity|].
  split; [rewrite Hq; destruct (lv_found LvPpSize _); reflexivity|].
  split; [rewrite Hp; destruct (lv_found LvPolicy _); reflexivity|].
  apply Hn. intros F. exfalso. apply F. reflexivity.
Qed.

(** A report with a name line and without one of the other fields makes
    [parse_lv] raise. *)
Lemma parse_lv_missing data :
  existsb names_lv (splitlines data) = true ->
  lv_found LvLps (splitlines data) = None
  \/ lv_found LvPpSize (splitlines data) = None
  \/ lv_found LvPolicy (splitlines data) = None ->
  parse_lv data = Raise UnboundLocalError.
Proof.
  intros Hx Hm. unfold parse_lv.
  destruct (lv_loop_end data) as (v & E & Hn & Hl & Hq & Hp & Hv).
  rewrite E. unfold lv_result. rewrite Hn, Hx, Hl, Hq, Hp.
  rewrite Hx in Hn. unfold named in Hv.
  destruct (v_name v) as [name|]; [|discriminate Hn].
  destruct (v_vg v) as [g|]; [|exfalso; apply Hv; congruence].
  simpl.
  destruct Hm as [F|[F|F]]; rewrite F; simpl; try reflexivity;
    destruct (lv_found LvLps (splitlines data)); simpl; try reflexivity;
    destruct (lv_found LvPpSize (splitlines data)); reflexivity.
Qed.

End ParseLvRaises.



(** A line is read as one field only: on a report of one line that each
    of the four patterns matches, the line is the name line, no line is
    read as [LPs:], and the parser raises. *)
Example parse_lv_first_pattern_wins :
  search re_lv_name More.lslv_report_one_line <> None
  /\ search re_lps More.lslv_report_one_line <> None
  /\ search re_pp_size More.lslv_report_one_line <> None
  /\ search re_policy More.lslv_report_one_line <> None
  /\ lv_found LvLps (splitlines More.lslv_report_one_line) = None
  /\ parse_lv More.lslv_report_one_line = Raise UnboundLocalError.
Proof.
  repeat split; try (vm_compute; reflexivity); vm_compute; discriminate.
Qed.

(** ** main: what every run keeps *)

(** All the ways through [main]. *)
Ltac split_main :=
  unfold main, main_steps, bind, bin_path, command, when, try, call, ret,
    report, exit_json, fail_json, stop;
  repeat match goal with
         | |- context [match ?x with _ => _ end] =>
             match x with
             | context [match _ with _ => _ end] => fail 1
             | _ => destruct x eqn:?
             end
         | |- context [if ?x then _ else _] =>
             match x with
             | context [if _ then _ else _] => fail 1
             | context [match _ with _ => _ end] => fail 1
             | _ => destruct x eqn:?
             end
         | _ => progress tidy
         end.

Lemma convert_size_not_exit s c m : convert_size s <> inl (ExitJson c m).
Proof.
  unfold convert_size.
  destruct (last_char _); [|discriminate].
  destruct (index _ _); [|discriminate].
  destruct (int _); discriminate.
Qed.

Lemma convert_size_no_diag s k m d :
  convert_size s = inl (FailJson k m d) -> k = InvalidSizeUnit /\ d = None.
Proof.
  unfold convert_size.
  destruct (last_char _); [|discriminate].
  destruct (index _ _).
  - destruct (int _); discriminate.
  - intros H. injection H as <- _ <-. auto.
Qed.

(** X6: a run has at most three commands. *)
Theorem main_at_most_three e p : (List.length (fst (main e p)) <= 3)%nat.
Proof. split_main; simpl; lia. Qed.

(** X7: a run reports a change only after a third command, one that
    exited with 0. *)
Theorem main_changed_after_success e p msg :
  snd (main e p) = ExitJson true msg ->
  exists c1 c2 cmd out err,
    fst (main e p) = [c1; c2; cmd] /\ run_command e cmd = (0, out, err).
Proof.
  split_main; try discriminate;
    try (intros H; exfalso; subst;
         eapply convert_size_not_exit; eassumption);
    intros _;
    match goal with
    | H : run_command e ?c = (?z, ?o, ?r), Hz : (?z =? 0) = true
      |- exists _ _ _ _ _, [_; _; ?c] = _ /\ _ =>
        apply Z.eqb_eq in Hz; subst z;
        do 5 eexists; split; [reflexivity|exact H]
    end.
Qed.

(** X7 on the creation of a volume of 512 MB. *)
Lemma main_changed_after_success_witness :
  exists c1 c2 cmd out err,
    fst (main (Sample.machine Sample.no_volume)
           (Sample.task (Some "512M") Present Maximum))
    = [c1; c2; cmd]
    /\ run_command (Sample.machine Sample.no_volume) cmd = (0, out, err).
Proof.
  apply (main_changed_after_success
           (Sample.machine Sample.no_volume)
           (Sample.task (Some "512M") Present Maximum)
           "Logical volume testlv created.").
  vm_compute. reflexivity.
Defined.

(** X8: a run that reports no change has run no command beyond the two
    reports. *)
Theorem main_unchanged_runs_nothing e p msg :
  snd (main e p) = ExitJson false msg ->
  (List.length (fst (main e p)) <= 2)%nat.
Proof.
  split_main; try discriminate; simpl; try lia;
    intros H; exfalso; subst; eapply convert_size_not_exit; eassumption.
Qed.

(** X8 on a volume that exists, with no size given. *)
Lemma main_unchanged_runs_nothing_witness :
  (List.length
     (fst (main (Sample.machine Sample.volume)
             (Sample.task None Present Maximum))) <= 2)%nat.
Proof.
  apply (main_unchanged_runs_nothing
           (Sample.machine Sample.volume) (Sample.task None Present Maximum)
           "Logical volume testlv already exist.").
  vm_compute. reflexivity.
Defined.

(** X9: in check mode the command that follows the two reports, whichever
    it is, starts with [echo]. *)
Theorem main_check_mode_echo e p cmd :
  check_mode e = true ->
  nth_error (fst (main e p)) 2 = Some cmd ->
  String.prefix "echo " cmd = true.
Proof.
  split_main; intros Hc; try discriminate; simpl;
    intros H; injection H as <-; apply String.prefix_correct; reflexivity.
Qed.

(** X9 on the removal of a volume. *)
Lemma main_check_mode_echo_witness :
  nth_error
    (fst (main (More.check_machine Sample.volume)
            (Sample.task None Absent Maximum))) 2
  = Some "echo  /usr/sbin/rmlv -f testlv"
  /\ String.prefix "echo " "echo  /usr/sbin/rmlv -f testlv" = true.
Proof.
  split; [vm_compute; reflexivity|].
  apply (main_check_mode_echo
           (More.check_machine Sample.volume)
           (Sample.task None Absent Maximum));
    vm_compute; reflexivity.
Defined.

(** X10: when the volume is to be absent, the only command that can
    follow the two reports is the removal, with [-f], of the volume named
    in the report of [lslv]: nothing is created, extended or changed. *)
Theorem main_absent_only_removes e p cmd :
  state p = Absent ->
  nth_error (fst (main e p)) 2 = Some cmd ->
  exists rmlv lslv this_lv,
    get_bin_path e "rmlv" = inr rmlv /\
    nth_error (fst (main e p)) 1 = Some lslv /\
    parse_lv (snd (fst (run_command e lslv))) = Ok (Some this_lv) /\
    cmd = fmt [if check_mode e then "echo " else ""; " "; rmlv; " -f ";
               lvf_name this_lv].
Proof.
  split_main; intros Hs; try discriminate; simpl; try discriminate;
    intros H; injection H as <-;
    do 3 eexists; (split; [reflexivity|]); (split; [reflexivity|]);
    (split; [|reflexivity]);
    match goal with
    | H : run_command e ?c = _ |- context [run_command e ?c] => rewrite H
    end; simpl; assumption.
Qed.

(** X10 on the removal of a volume. *)
Lemma main_absent_only_removes_witness :
  exists rmlv lslv this_lv,
    get_bin_path (Sample.machine Sample.volume) "rmlv" = inr rmlv /\
    nth_error
      (fst (main (Sample.machine Sample.volume)
              (Sample.task (Some "1G") Absent Maximum))) 1
    = Some lslv /\
    parse_lv (snd (fst (run_command (Sample.machine Sample.volume) lslv)))
    = Ok (Some this_lv) /\
    " /usr/sbin/rmlv -f testlv"
    = fmt [if check_mode (Sample.machine Sample.volume) then "echo " else "";
           " "; rmlv; " -f "; lvf_name this_lv].
Proof.
  apply (main_absent_only_removes
           (Sample.machine Sample.volume)
           (Sample.task (Some "1G") Absent Maximum));
    vm_compute; reflexivity.
Defined.

(** X11: a failure carries an exit code, an output and an error text
    exactly when it is the failure of a command. *)
Theorem main_diagnostics e p k msg diag :
  snd (main e p) = FailJson k msg diag ->
  (k = ExternalCommandError <-> diag <> None).
Proof.
  split_main; try discriminate;
    try (intros H; subst;
         match goal with
         | H : convert_size _ = inl (FailJson _ _ _) |- _ =>
             apply convert_size_no_diag in H as [-> ->]
         end);
    try (intros H; injection H as <- <- <-);
    split; intros ?; try discriminate; try congruence.
Qed.

(** X11 on a group that does not exist. *)
Lemma main_diagnostics_witness :
  ExternalCommandError = ExternalCommandError
  <-> Some (1, "", "0516-306 lsvg: Unable to find volume group testvg.")
      <> None.
Proof.
  apply (main_diagnostics More.no_group (Sample.task None Present Maximum)
           ExternalCommandError "Volume group testvg does not exist.").
  vm_compute. reflexivity.
Defined.

(** ** main: the ways through it that end early *)

Ltac use_size_ok H :=
  unfold size_ok in H;
  match type of H with
  | context [size ?p] =>
      let s := fresh "s" in
      let E := fresh "Esize" in
      destruct (size p) as [s|] eqn:E;
      [ let mb := fresh "mb" in
        let n := fresh "n" in
        let Hc := fresh "Hc" in
        let Hr := fresh "Hr" in
        destruct H as (mb & n & Hc & Hr);
        pose proof (convert_size_nonempty s mb Hc)
      | clear H ]
  end.

(** A group report without one of its fields makes [parse_vg] raise. *)
Lemma parse_vg_missing data f :
  vg_found f (splitlines data) = None ->
  parse_vg data = Raise UnboundLocalError.
Proof.
  intros H. unfold parse_vg.
  destruct (vg_loop (splitlines data) vg_vars0)
    as (v & E & Hn & Hs & Hp & Hf).
  rewrite E. unfold vg_result. rewrite Hn, Hs, Hp, Hf.
  destruct f; rewrite H; simpl;
    repeat match goal with
           | |- context [vg_found ?g ?l] => destruct (vg_found g l)
           end; reflexivity.
Qed.

Section Early.

Variables (e : env) (p : params).

(** X12: [lsvg] and [lslv] are both looked up before anything is run:
    when either is missing the run fails without a command. *)
Theorem main_needs_report_tools msg :
  get_bin_path e "lsvg" = inl msg
  \/ (exists lsvg, get_bin_path e "lsvg" = inr lsvg)
     /\ get_bin_path e "lslv" = inl msg ->
  main e p = ([], FailJson MissingExecutable msg None).
Proof.
  intros [H|[(lsvg & H1) H2]]; run_main; reflexivity.
Qed.

Variables (lsvg lslv : string).
Hypothesis lsvg_found : get_bin_path e "lsvg" = inr lsvg.
Hypothesis lslv_found : get_bin_path e "lslv" = inr lslv.

(** X13: when [lsvg] exits with another code than 0 the run ends after
    that one command: unchanged if the volume is to be absent, and with a
    failure that carries the code and the texts of [lsvg] if it is to be
    present. *)
Theorem main_group_missing rc out err :
  run_command e (fmt [lsvg; " "; vg p]) = (rc, out, err) -> rc <> 0 ->
  main e p
  = ([fmt [lsvg; " "; vg p]],
     match state p with
     | Absent =>
         ExitJson false (fmt ["Volume group "; vg p; " does not exist."])
     | Present =>
         FailJson ExternalCommandError
           (fmt ["Volume group "; vg p; " does not exist."])
           (Some (rc, out, err))
     end).
Proof.
  intros Hr Hrc. apply Z.eqb_neq in Hrc.
  run_main. destruct (state p); reflexivity.
Qed.

Variables (vg_info vg_err : string) (this_vg : vg_facts).
Hypothesis group_report :
  run_command e (fmt [lsvg; " "; vg p]) = (0, vg_info, vg_err).

(** X14: when [lsvg] exits with 0 and one of the four fields is found on
    no line of its report, the run ends in an [UnboundLocalError] nobody
    catches, whatever the state wanted. *)
Theorem main_group_incomplete f :
  vg_found f (splitlines vg_info) = None ->
  main e p = ([fmt [lsvg; " "; vg p]], Uncaught UnboundLocalError).
Proof.
  intros H. pose proof (parse_vg_missing vg_info f H) as Hp.
  run_main. reflexivity.
Qed.

Hypothesis group_parsed : parse_vg vg_info = Ok this_vg.

(** X15: a size that was given is converted and aligned before the
    volume is looked up, whatever the state wanted: when the conversion
    fails or the alignment raises, the run ends there, after [lsvg]
    alone. *)
Theorem main_size_checked_first s o :
  size p = Some s ->
  convert_size s = inl o
  \/ (exists mb ex,
        convert_size s = inr mb /\
        round_ppsize mb (vgf_pp_size this_vg) = Raise ex /\
        o = Uncaught ex) ->
  main e p = ([fmt [lsvg; " "; vg p]], o).
Proof.
  intros Hs [Hc|(mb & ex & Hc & Hr & ->)]; run_main; reflexivity.
Qed.

Variables (rc : Z) (lv_info lv_err : string).
Hypothesis volume_report :
  run_command e (fmt [lslv; " "; lv p]) = (rc, lv_info, lv_err).
Hypothesis size_fine : size_ok p this_vg.

(** X16: when the volume is to be absent and [lslv] exits with another
    code than 0, the run ends unchanged after the two reports; the output
    of [lslv] is not read. *)
Theorem main_volume_already_absent :
  state p = Absent -> rc <> 0 ->
  main e p
  = ([fmt [lsvg; " "; vg p]; fmt [lslv; " "; lv p]],
     ExitJson false (fmt ["Logical Volume "; lv p; " does not exist."])).
Proof.
  intros Hs Hrc. apply Z.eqb_neq in Hrc.
  pose proof size_fine as Hz. use_size_ok Hz; run_main; reflexivity.
Qed.

(** X17: when the report of [lslv] is read (the volume is to be present,
    or [lslv] exited with 0), has a name line and lacks the partitions,
    the unit size or the policy, the run ends in an [UnboundLocalError]
    nobody catches. *)
Theorem main_volume_incomplete :
  state p = Present \/ rc = 0 ->
  existsb names_lv (splitlines lv_info) = true ->
  lv_found LvLps (splitlines lv_info) = None
  \/ lv_found LvPpSize (splitlines lv_info) = None
  \/ lv_found LvPolicy (splitlines lv_info) = None ->
  main e p
  = ([fmt [lsvg; " "; vg p]; fmt [lslv; " "; lv p]],
     Uncaught UnboundLocalError).
Proof.
  intros Hs Hx Hm. pose proof (parse_lv_missing lv_info Hx Hm) as Hp.
  pose proof size_fine as Hz.
  destruct Hs as [Hs| ->]; use_size_ok Hz; run_main;
    try reflexivity; destruct (state p); reflexivity.
Qed.

Variable this_lv : lv_facts.
Hypothesis volume_parsed : parse_lv lv_info = Ok (Some this_lv).

(** X18: when the volume is to be absent and is observed, the one command
    after the two reports removes, with [-f], the volume named in the
    report, whatever size was given; exit code 0 gives a change, another
    code the failure with the code and the texts of the command. *)
Theorem main_removes (rmlv : string) :
  state p = Absent -> rc = 0 ->
  get_bin_path e "rmlv" = inr rmlv ->
  let cmd := fmt [if check_mode e then "echo " else ""; " "; rmlv; " -f ";
                  lvf_name this_lv] in
  main e p
  = ([fmt [lsvg; " "; vg p]; fmt [lslv; " "; lv p]; cmd],
     let '(rc, out, err) := run_command e cmd in
     if rc =? 0 then
       ExitJson true (fmt ["Logical volume "; lv p; " deleted."])
     else
       FailJson ExternalCommandError
         (fmt ["Failed to remove logical volume "; lv p; "."])
         (Some (rc, out, err))).
Proof.
  intros Hs Hrc Hb cmd. subst rc.
  pose proof size_fine as Hz. use_size_ok Hz; run_main; fold cmd;
    destruct (run_command e cmd) as [[rc' out] err];
    destruct (rc' =? 0); reflexivity.
Qed.

(** X19: when the volume is to be present and is observed with the wanted
    policy in another group than the wanted one, the run fails after the
    two reports and runs no further command, with or without a size. *)
Theorem main_group_mismatch :
  state p = Present ->
  lvf_policy this_lv = policy_name (policy p) ->
  lvf_vg this_lv <> vg p ->
  main e p
  = ([fmt [lsvg; " "; vg p]; fmt [lslv; " "; lv p]],
     FailJson GroupMismatchError
       (fmt ["Logical volume "; lv p; " already exist in volume group ";
             lvf_vg this_lv]) None).
Proof.
  intros Hs Hp Hv.
  assert (String.eqb (vg p) (lvf_vg this_lv) = false) as Hv'
    by (apply String.eqb_neq; congruence).
  pose proof size_fine as Hz. use_size_ok Hz; run_main; reflexivity.
Qed.

(** X20: when the volume is to be present, is observed in the wanted
    group with the wanted policy and no size was given, the run ends
    unchanged after the two reports. *)
Theorem main_exists_no_size :
  state p = Present ->
  lvf_policy this_lv = policy_name (policy p) ->
  lvf_vg this_lv = vg p ->
  size p = None ->
  main e p
  = ([fmt [lsvg; " "; vg p]; fmt [lslv; " "; lv p]],
     ExitJson false (fmt ["Logical volume "; lv p; " already exist."])).
Proof.
  intros Hs Hp Hv Hz. run_main. reflexivity.
Qed.

End Early.

(** ** The early ways on the sample machines *)

(** X12 on a machine without the executables. *)
Lemma main_needs_report_tools_witness :
  main More.bare_machine (Sample.task (Some "1G") Present Maximum)
  = ([], FailJson MissingExecutable "Failed to find required executable" None).
Proof.
  apply (main_needs_report_tools More.bare_machine
           (Sample.task (Some "1G") Present Maximum)
           "Failed to find required executable").
  left. vm_compute. reflexivity.
Defined.

(** X13 on a group that does not exist, for a volume to be removed. *)
Lemma main_group_missing_witness :
  main More.no_group (Sample.task None Absent Maximum)
  = (["/usr/sbin/lsvg testvg"],
     ExitJson false "Volume group testvg does not exist.").
Proof.
  refine (main_group_missing More.no_group (Sample.task None Absent Maximum)
            "/usr/sbin/lsvg" "/usr/sbin/lslv" _ _
            1 "" "0516-306 lsvg: Unable to find volume group testvg." _ _);
    try (vm_compute; reflexivity); discriminate.
Defined.

(** X14 on a group report without the line of the free units. *)
Lemma main_group_incomplete_witness :
  main More.short_group (Sample.task (Some "1G") Absent Maximum)
  = (["/usr/sbin/lsvg testvg"], Uncaught UnboundLocalError).
Proof.
  refine (main_group_incomplete More.short_group
            (Sample.task (Some "1G") Absent Maximum)
            "/usr/sbin/lsvg" "/usr/sbin/lslv" _ _
            Sample.lsvg_report_short "" _ VgFree _);
    vm_compute; reflexivity.
Defined.

(** X15 on the removal of a volume with a size in kilobytes. *)
Lemma main_size_checked_first_witness :
  main (Sample.machine Sample.volume) (Sample.task (Some "10K") Absent Maximum)
  = (["/usr/sbin/lsvg testvg"],
     FailJson InvalidSizeUnit "No valid size unit specified." None).
Proof.
  refine (main_size_checked_first (Sample.machine Sample.volume)
            (Sample.task (Some "10K") Absent Maximum)
            "/usr/sbin/lsvg" "/usr/sbin/lslv" _ _
            Sample.lsvg_report "" Sample.this_vg _ _
            "10K" (FailJson InvalidSizeUnit "No valid size unit specified." None)
            _ _);
    [vm_compute; reflexivity .. | left; vm_compute; reflexivity].
Defined.

(** X16 on a volume that does not exist. *)
Lemma main_volume_already_absent_witness :
  main (Sample.machine Sample.no_volume) (Sample.task None Absent Maximum)
  = (Sample.reports, ExitJson false "Logical Volume testlv does not exist.").
Proof.
  refine (main_volume_already_absent (Sample.machine Sample.no_volume)
            (Sample.task None Absent Maximum)
            "/usr/sbin/lsvg" "/usr/sbin/lslv" _ _
            Sample.lsvg_report "" Sample.this_vg _ _
            1 "" (snd Sample.no_volume) _ _ _ _);
    lazymatch goal with
    | |- size_ok _ _ => exact I
    | |- _ <> _ => discriminate
    | |- _ => vm_compute; reflexivity
    end.
Defined.

(** X17 on a volume report cut before the line of the partitions. *)
Lemma main_volume_incomplete_witness :
  main (Sample.machine (0, More.lslv_report_short, ""))
    (Sample.task None Present Maximum)
  = (Sample.reports, Uncaught UnboundLocalError).
Proof.
  refine (main_volume_incomplete
            (Sample.machine (0, More.lslv_report_short, ""))
            (Sample.task None Present Maximum)
            "/usr/sbin/lsvg" "/usr/sbin/lslv" _ _
            Sample.lsvg_report "" Sample.this_vg _ _
            0 More.lslv_report_short "" _ _ _ _ _);
    lazymatch goal with
    | |- size_ok _ _ => exact I
    | |- _ \/ _ => left; vm_compute; reflexivity
    | |- _ => vm_compute; reflexivity
    end.
Defined.

(** X18 on the removal of a volume, with a size given. *)
Lemma main_removes_witness :
  main (Sample.machine Sample.volume) (Sample.task (Some "1G") Absent Maximum)
  = (Sample.reports ++ [" /usr/sbin/rmlv -f testlv"],
     ExitJson true "Logical volume testlv deleted.").
Proof.
  refine (main_removes (Sample.machine Sample.volume)
            (Sample.task (Some "1G") Absent Maximum)
            "/usr/sbin/lsvg" "/usr/sbin/lslv" _ _
            Sample.lsvg_report "" Sample.this_vg _ _
            0 Sample.lslv_report "" _ _
            Sample.this_lv _ "/usr/sbin/rmlv" _ _ _);
    lazymatch goal with
    | |- size_ok _ _ => exists 1024, 1024; split; vm_compute; reflexivity
    | |- _ => vm_compute; reflexivity
    end.
Defined.

(** X19 on a volume of that name in another group. *)
Lemma main_group_mismatch_witness :
  main (Sample.machine (0, More.lslv_report_elsewhere, ""))
    (Sample.task (Some "1G") Present Maximum)
  = (Sample.reports,
     FailJson GroupMismatchError
       "Logical volume testlv already exist in volume group datavg" None).
Proof.
  refine (main_group_mismatch
            (Sample.machine (0, More.lslv_report_elsewhere, ""))
            (Sample.task (Some "1G") Present Maximum)
            "/usr/sbin/lsvg" "/usr/sbin/lslv" _ _
            Sample.lsvg_report "" Sample.this_vg _ _
            0 More.lslv_report_elsewhere "" _ _
            More.lv_elsewhere _ _ _ _);
    lazymatch goal with
    | |- size_ok _ _ => exists 1024, 1024; split; vm_compute; reflexivity
    | |- _ <> _ => vm_compute; discriminate
    | |- _ => vm_compute; reflexivity
    end.
Defined.

(** X20 on a volume that exists. *)
Lemma main_exists_no_size_witness :
  main (Sample.machine Sample.volume) (Sample.task None Present Maximum)
  = (Sample.reports, ExitJson false "Logical volume testlv already exist.").
Proof.
  refine (main_exists_no_size (Sample.machine Sample.volume)
            (Sample.task None Present Maximum)
            "/usr/sbin/lsvg" "/usr/sbin/lslv" _ _
            Sample.lsvg_report "" Sample.this_vg _ _
            0 Sample.lslv_report "" _
            Sample.this_lv _ _ _ _ _);
    vm_compute; reflexivity.
Defined.

(** ** main: the commands that change something *)

Section Late.

Variables (e : env) (p : params).
Variables (lsvg lslv vg_info vg_err : string) (this_vg : vg_facts).
Variables (rc : Z) (lv_info lv_err : string).

Hypothesis lsvg_found : get_bin_path e "lsvg" = inr lsvg.
Hypothesis lslv_found : get_bin_path e "lslv" = inr lslv.
Hypothesis group_report :
  run_command e (fmt [lsvg; " "; vg p]) = (0, vg_info, vg_err).
Hypothesis group_parsed : parse_vg vg_info = Ok this_vg.
Hypothesis volume_report :
  run_command e (fmt [lslv; " "; lv p]) = (rc, lv_info, lv_err).
Hypothesis wanted : state p = Present.

(** X21: when the volume is to be present, none is observed and the size
    given, aligned to [n], fits in the free space of the group, the one
    command after the two reports is [mklv] with the type, the name, the
    copies, the policy letter, the options, the group, [n] and the disks,
    in that order; exit code 0 gives a change, another code the failure
    with the code and the texts of the command. *)
Theorem main_creates (s : string) (mb n : Z) (mklv : string) :
  size p = Some s -> convert_size s = inr mb ->
  round_ppsize mb (vgf_pp_size this_vg) = Ok n ->
  parse_lv lv_info = Ok None ->
  n <= vgf_free this_vg ->
  get_bin_path e "mklv" = inr mklv ->
  let cmd :=
    fmt [if check_mode e then "echo " else ""; " "; mklv; " -t "; lv_type p;
         " -y "; lv p; " -c "; str (copies p); "  -e ";
         match policy p with Maximum => "x" | Minimum => "m" end; " ";
         opts p; " "; vg p; " "; str n; "M "; join " " (pvs p)] in
  main e p
  = ([fmt [lsvg; " "; vg p]; fmt [lslv; " "; lv p]; cmd],
     let '(rc, out, err) := run_command e cmd in
     if rc =? 0 then
       ExitJson true (fmt ["Logical volume "; lv p; " created."])
     else
       FailJson ExternalCommandError
         (fmt ["Creating logical volume "; lv p; " failed."])
         (Some (rc, out, err))).
Proof.
  intros Hs Hc Hr Hl Hf Hb cmd. apply Z.ltb_ge in Hf.
  pose proof (convert_size_nonempty s mb Hc) as Hne.
  run_main. fold cmd.
  destruct (run_command e cmd) as [[rc' out] err].
  destruct (rc' =? 0); reflexivity.
Qed.

Variable this_lv : lv_facts.
Hypothesis volume_parsed : parse_lv lv_info = Ok (Some this_lv).
Hypothesis size_fine : size_ok p this_vg.

(** X22: the policy is compared before the group and before the size:
    when the volume is observed with another policy than the wanted one,
    the one command after the two reports changes the policy of the volume
    named in the report, also when that volume is in another group than
    the wanted one, with or without a size. *)
Theorem main_policy_before_group (chlv : string) :
  lvf_policy this_lv <> policy_name (policy p) ->
  get_bin_path e "chlv" = inr chlv ->
  let cmd :=
    fmt [if check_mode e then "echo " else ""; " "; chlv; " -e ";
         match policy p with Maximum => "x" | Minimum => "m" end; " ";
         lvf_name this_lv] in
  main e p
  = ([fmt [lsvg; " "; vg p]; fmt [lslv; " "; lv p]; cmd],
     let '(rc, out, err) := run_command e cmd in
     if rc =? 0 then
       ExitJson true
         (fmt ["Logical volume "; lv p; " policy changed: ";
               policy_name (policy p); "."])
     else
       FailJson ExternalCommandError
         (fmt ["Failed to change logical volume "; lv p; " policy."])
         (Some (rc, out, err))).
Proof.
  intros Hp Hb cmd. apply String.eqb_neq in Hp.
  pose proof size_fine as Hz. use_size_ok Hz; run_main; fold cmd;
    destruct (run_command e cmd) as [[rc' out] err];
    destruct (rc' =? 0); reflexivity.
Qed.

(** X23: when the volume is observed in the wanted group with the wanted
    policy and the size given, aligned to [n], is larger than the observed
    one, the exit code of [extendlv] decides the outcome: 0 gives a change
    that names [n], another code the failure with the code and the texts
    of the command. *)
Theorem main_extends (s : string) (mb n : Z) (extendlv : string) :
  size p = Some s -> convert_size s = inr mb ->
  round_ppsize mb (vgf_pp_size this_vg) = Ok n ->
  lvf_policy this_lv = policy_name (policy p) ->
  lvf_vg this_lv = vg p ->
  lvf_size this_lv < n ->
  get_bin_path e "extendlv" = inr extendlv ->
  let cmd :=
    fmt [if check_mode e then "echo " else ""; " "; extendlv; " "; lv p;
         " "; str (n - lvf_size this_lv); "M"] in
  snd (main e p)
  = let '(rc, out, err) := run_command e cmd in
    if rc =? 0 then
      ExitJson true
        (fmt ["Logical volume "; lv p; " size extended to "; str n; "MB."])
    else
      FailJson ExternalCommandError
        (fmt ["Unable to resize "; lv p; " to "; str n; "MB."])
        (Some (rc, out, err)).
Proof.
  intros Hs Hc Hr Hp Hv Hn Hb cmd. apply Z.ltb_lt in Hn.
  pose proof (convert_size_nonempty s mb Hc) as Hne.
  run_main. fold cmd.
  destruct (run_command e cmd) as [[rc' out] err].
  destruct (rc' =? 0); reflexivity.
Qed.

End Late.

(** X24: a run fails for a missing executable only with the message of
    the lookup of one of the six tools, without diagnostics, and either
    before any command ([lsvg], [lslv]) or right after the two reports. *)
Theorem main_missing_tool e p msg diag :
  snd (main e p) = FailJson MissingExecutable msg diag ->
  diag = None
  /\ (exists name,
        In name ["lsvg"; "lslv"; "mklv"; "rmlv"; "chlv"; "extendlv"]
        /\ get_bin_path e name = inl msg)
  /\ (List.length (fst (main e p)) = 0 \/ List.length (fst (main e p)) = 2)%nat.
Proof.
  split_main; try discriminate;
    try (intros H; subst;
         match goal with
         | H : convert_size _ = inl (FailJson _ _ _) |- _ =>
             apply convert_size_no_diag in H as [? ?]; discriminate
         end);
    intros H; injection H as <- <-;
    (split; [reflexivity|]);
    (split; [|simpl; auto]);
    eexists; (split; [|eassumption]); simpl; auto 10.
Qed.

(** X25: the code and the texts a failure carries are those of the last
    command of the run, and that code is not 0. *)
Theorem main_failure_of_last_command e p k msg rc out err :
  snd (main e p) = FailJson k msg (Some (rc, out, err)) ->
  exists before cmd,
    fst (main e p) = before ++ [cmd]
    /\ run_command e cmd = (rc, out, err) /\ rc <> 0.
Proof.
  split_main; try discriminate;
    try (intros H; subst;
         match goal with
         | H : convert_size _ = inl (FailJson _ _ _) |- _ =>
             apply convert_size_no_diag in H as [? ?]; discriminate
         end);
    intros H; injection H as <- <- <- <- <-;
    repeat match goal with
           | Hz : negb (_ =? 0) = true |- _ => apply negb_true_iff in Hz
           end;
    match goal with
    | H : run_command _ ?c = (?z, _, _), Hz : (?z =? 0) = false
      |- exists _ _, ?l = _ /\ _ =>
        apply Z.eqb_neq in Hz;
        first [ exists [], c; split; [reflexivity|split; [exact H|exact Hz]]
              | eexists [_; _], c;
                split; [reflexivity|split; [exact H|exact Hz]] ]
    end.
Qed.

(** X26: both report tools are looked up before the first command; the
    first command of a run is the report of the wanted group and the
    second, if there is one, the report of the wanted volume. *)
Theorem main_reports_first e p :
  fst (main e p) <> [] ->
  exists lsvg lslv rest,
    get_bin_path e "lsvg" = inr lsvg
    /\ get_bin_path e "lslv" = inr lslv
    /\ fst (main e p) = fmt [lsvg; " "; vg p] :: rest
    /\ (rest = [] \/ exists third, rest = fmt [lslv; " "; lv p] :: third).
Proof.
  split_main; intros H; try (exfalso; apply H; reflexivity);
    do 3 eexists; (split; [reflexivity|]); (split; [reflexivity|]);
    (split; [reflexivity|]);
    first [ left; reflexivity | right; eexists; reflexivity ].
Qed.

(** ** The commands that change something on the sample machines *)

(** X21 on a mirrored volume of 10 MB on two disks: 12 MB are asked. *)
Lemma main_creates_witness :
  main (Sample.machine Sample.no_volume) More.disks_task
  = (Sample.reports
       ++ [" /usr/sbin/mklv -t jfs2 -y testlv -c 2  -e m -x 4 testvg 12M hdisk1 hdisk2"],
     ExitJson true "Logical volume testlv created.").
Proof.
  refine (main_creates (Sample.machine Sample.no_volume) More.disks_task
            "/usr/sbin/lsvg" "/usr/sbin/lslv" Sample.lsvg_report ""
            Sample.this_vg 1 "" (snd Sample.no_volume)
            _ _ _ _ _ _ "10M" 10 12 "/usr/sbin/mklv" _ _ _ _ _ _);
    try (vm_compute; reflexivity); vm_compute; discriminate.
Defined.

(** X22 on a volume of another group, with no size given. *)
Lemma main_policy_before_group_witness :
  main (Sample.machine (0, More.lslv_report_elsewhere, ""))
    (Sample.task None Present Minimum)
  = (Sample.reports ++ [" /usr/sbin/chlv -e m testlv"],
     ExitJson true "Logical volume testlv policy changed: minimum.").
Proof.
  refine (main_policy_before_group
            (Sample.machine (0, More.lslv_report_elsewhere, ""))
            (Sample.task None Present Minimum)
            "/usr/sbin/lsvg" "/usr/sbin/lslv" Sample.lsvg_report ""
            Sample.this_vg 0 More.lslv_report_elsewhere ""
            _ _ _ _ _ _ More.lv_elsewhere _ _ "/usr/sbin/chlv" _ _);
    lazymatch goal with
    | |- size_ok _ _ => exact I
    | |- _ <> _ => vm_compute; discriminate
    | |- _ => vm_compute; reflexivity
    end.
Defined.

(** X23 where a volume of 512 MB is wanted with 1200 MB. *)
Lemma main_extends_witness :
  snd (main (Sample.machine Sample.volume)
         (Sample.task (Some "1200M") Present Maximum))
  = ExitJson true "Logical volume testlv size extended to 1200MB.".
Proof.
  refine (main_extends (Sample.machine Sample.volume)
            (Sample.task (Some "1200M") Present Maximum)
            "/usr/sbin/lsvg" "/usr/sbin/lslv" Sample.lsvg_report ""
            Sample.this_vg 0 Sample.lslv_report ""
            _ _ _ _ _ _ Sample.this_lv _
            "1200M" 1200 1200 "/usr/sbin/extendlv" _ _ _ _ _ _ _);
    vm_compute; reflexivity.
Defined.

(** X24 on the creation of a volume without [mklv]. *)
Lemma main_missing_tool_witness :
  @None (Z * string * string) = None
  /\ (exists name,
        In name ["lsvg"; "lslv"; "mklv"; "rmlv"; "chlv"; "extendlv"]
        /\ get_bin_path More.no_mklv name
           = inl "Failed to find required executable mklv")
  /\ (List.length
        (fst (main More.no_mklv (Sample.task (Some "512M") Present Maximum)))
      = 0
      \/ List.length
           (fst (main More.no_mklv (Sample.task (Some "512M") Present Maximum)))
         = 2)%nat.
Proof.
  apply (main_missing_tool More.no_mklv
           (Sample.task (Some "512M") Present Maximum)
           "Failed to find required executable mklv" None).
  vm_compute. reflexivity.
Defined.

(** X25 on a group that does not exist. *)
Lemma main_failure_of_last_command_witness :
  exists before cmd,
    fst (main More.no_group (Sample.task None Present Maximum))
    = before ++ [cmd]
    /\ run_command More.no_group cmd
       = (1, "", "0516-306 lsvg: Unable to find volume group testvg.")
    /\ 1 <> 0.
Proof.
  apply (main_failure_of_last_command More.no_group
           (Sample.task None Present Maximum)
           ExternalCommandError "Volume group testvg does not exist.").
  vm_compute. reflexivity.
Defined.

(** X26 on a volume that exists. *)
Lemma main_reports_first_witness :
  exists lsvg lslv rest,
    get_bin_path (Sample.machine Sample.volume) "lsvg" = inr lsvg
    /\ get_bin_path (Sample.machine Sample.volume) "lslv" = inr lslv
    /\ fst (main (Sample.machine Sample.volume)
              (Sample.task None Present Maximum))
       = fmt [lsvg; " "; "testvg"] :: rest
    /\ (rest = [] \/ exists third, rest = fmt [lslv; " "; "testlv"] :: third).
Proof.
  apply (main_reports_first (Sample.machine Sample.volume)
           (Sample.task None Present Maximum)).
  vm_compute. discriminate.
Defined.
